(** * DTM sweep controller (Tools/Bluetooth/dtm_sweep.py)

    A shallow embedding of the sweep script and the properties of its
    specification.

    The script is modelled as it is written: a flat sequence of
    parameter expansion, two nested [for] loops around a bounded [while]
    retry loop, and the exit decision, run in a state-and-exception monad.
    The state holds the script's mutable variables ([per_100], [perMax],
    [perMaster], [perSlave]), the commands sent to the collaborators and the
    lines written to the results file.

    - Python values are [None], unbounded [int], [float] and [str]. Floats
      are IEEE binary64 as specified by the standard library's [SpecFloat]
      (precision 53, [emax] 1024); [a / b] on ints rounds the exact quotient
      once, as CPython does; comparisons are by exact value.
    - [int()] and [float()] read ASCII text; the options [--delay],
      [--limit] and [--step] hold either their int default or the string
      given on the command line, since [argparse] is given no [type].
    - The two device sessions and the attenuator are outside the script. A
      run is parameterised by a [bench]: whether the attenuator is present
      and what each end-test call returns given the commands sent so far.
      Their other calls are recorded in the log and return nothing; failures
      inside the collaborators are not modelled.
    - Prints, the settling sleeps of 0.1 s and the timing of each level are
      left out; the waits of [--delay] seconds are recorded.
    - A row of the results file is kept as a record of its fields rather
      than as text. *)

From Stdlib Require Import ZArith Arith List String Ascii Bool Lia.
From Stdlib Require Import SpecFloat.
Import ListNotations.
Local Open Scope string_scope.
Local Open Scope list_scope.
Local Open Scope Z_scope.

(** ** Python runtime values *)

Module Py.

(** The exceptions the script can die from. None of them is caught in
    dtm_sweep.py, so raising one ends the process. *)
Inductive exn : Type :=
| TypeError
| ValueError
| ZeroDivisionError
| OverflowError
| NameError.

Inductive result (A : Type) : Type :=
| Ok (a : A)
| Raise (e : exn).
Arguments Ok {A} a.
Arguments Raise {A} e.

Definition rbind {A B} (r : result A) (k : A -> result B) : result B :=
  match r with
  | Ok a => k a
  | Raise e => Raise e
  end.

(** Python objects that reach the arithmetic and the results file: [None],
    [int] (unbounded), [float] (IEEE binary64) and [str]. *)
Inductive value : Type :=
| PNone
| PInt (z : Z)
| PFloat (f : spec_float)
| PStr (s : string).

Definition is_none (v : value) : bool :=
  match v with
  | PNone => true
  | _ => false
  end.

(** *** binary64 *)

Definition prec : Z := 53.
Definition emax : Z := 1024.

(** An integer as an exact, not yet rounded, binary float. *)
Definition exactZ (z : Z) : spec_float :=
  match z with
  | Z0 => S754_zero false
  | Zpos p => S754_finite false p 0
  | Zneg p => S754_finite true p 0
  end.

(** [float(int)]: the correctly rounded double. *)
Definition roundZ (z : Z) : spec_float := binary_normalize prec emax z 0 false.

Definition is_inf (f : spec_float) : bool :=
  match f with
  | S754_infinity _ => true
  | _ => false
  end.

Definition is_fzero (f : spec_float) : bool :=
  match f with
  | S754_zero _ => true
  | _ => false
  end.

(** The mantissa of a finite float, signed and rescaled to the exponent [e]
    (meant for [e] not above the float's own exponent). *)
Definition scaled (f : spec_float) (e : Z) : Z :=
  match f with
  | S754_finite s m ex => cond_Zopp s (Zpos m * 2 ^ (ex - e))
  | _ => 0
  end.

Definition fexpo (f : spec_float) (dflt : Z) : Z :=
  match f with
  | S754_finite _ _ e => e
  | _ => dflt
  end.

(** Comparison of two floats by their exact values: [None] when one is a
    NaN, signed zeros equal, infinities at the ends. *)
Definition fcompare (x y : spec_float) : option comparison :=
  match x, y with
  | S754_nan, _ | _, S754_nan => None
  | S754_infinity sx, S754_infinity sy =>
      Some (if sx then (if sy then Eq else Lt) else (if sy then Gt else Eq))
  | S754_infinity sx, _ => Some (if sx then Lt else Gt)
  | _, S754_infinity sy => Some (if sy then Gt else Lt)
  | _, _ =>
      let e := Z.min (fexpo x (fexpo y 0)) (fexpo y (fexpo x 0)) in
      Some (Z.compare (scaled x e) (scaled y e))
  end.

Definition fltb (x y : spec_float) : bool :=
  match fcompare x y with
  | Some Lt => true
  | _ => false
  end.

Definition fleb (x y : spec_float) : bool :=
  match fcompare x y with
  | Some Lt | Some Eq => true
  | _ => false
  end.

Definition feqb (x y : spec_float) : bool :=
  match fcompare x y with
  | Some Eq => true
  | _ => false
  end.

(** *** Arithmetic and comparison operators *)

Definition is_num (v : value) : bool :=
  match v with
  | PInt _ | PFloat _ => true
  | _ => false
  end.

Definition as_float (v : value) : result spec_float :=
  match v with
  | PInt z => let f := roundZ z in if is_inf f then Raise OverflowError else Ok f
  | PFloat f => Ok f
  | _ => Raise TypeError
  end.

(** [a / b]. On two ints the exact quotient is rounded once; a zero divisor
    raises [ZeroDivisionError], a quotient beyond the doubles
    [OverflowError]; [None] and strings do not divide. *)
Definition truediv (a b : value) : result value :=
  match a, b with
  | PInt x, PInt y =>
      if y =? 0 then Raise ZeroDivisionError
      else let q := SFdiv prec emax (exactZ x) (exactZ y) in
           if is_inf q then Raise OverflowError else Ok (PFloat q)
  | _, _ =>
      if is_num a && is_num b then
        rbind (as_float a) (fun x =>
        rbind (as_float b) (fun y =>
        if is_fzero y then Raise ZeroDivisionError
        else Ok (PFloat (SFdiv prec emax x y))))
      else Raise TypeError
  end.

Fixpoint repeat_string (n : nat) (s : string) : string :=
  match n with
  | O => ""
  | S n' => (s ++ repeat_string n' s)%string
  end.

(** [a * b]: int product, float product after converting an int operand, and
    repetition of a string by an int. *)
Definition mul (a b : value) : result value :=
  match a, b with
  | PInt x, PInt y => Ok (PInt (x * y))
  | PStr s, PInt n | PInt n, PStr s => Ok (PStr (repeat_string (Z.to_nat n) s))
  | _, _ =>
      if is_num a && is_num b then
        rbind (as_float a) (fun x =>
        rbind (as_float b) (fun y => Ok (PFloat (SFmul prec emax x y))))
      else Raise TypeError
  end.

(** The float carrying the exact value of a number, for comparisons (Python
    compares an int with a float exactly). *)
Definition num_exact (v : value) : option spec_float :=
  match v with
  | PInt z => Some (exactZ z)
  | PFloat f => Some f
  | _ => None
  end.

Definition str_ltb (s t : string) : bool :=
  match String.compare s t with
  | Lt => true
  | _ => false
  end.

(** [a > b] *)
Definition gt (a b : value) : result bool :=
  match a, b with
  | PStr s, PStr t => Ok (str_ltb t s)
  | _, _ =>
      match num_exact a, num_exact b with
      | Some x, Some y => Ok (fltb y x)
      | _, _ => Raise TypeError
      end
  end.

(** [a != b] on numbers *)
Definition ne (a b : value) : bool :=
  match num_exact a, num_exact b with
  | Some x, Some y => negb (feqb x y)
  | _, _ => true
  end.

(** *** Strings: [strip], [split], [int()] and [float()]

    Strings are byte strings; the whitespace and digits recognised are the
    ASCII ones. *)

Definition is_space (c : ascii) : bool :=
  let n := N_of_ascii c in
  ((9 <=? n) && (n <=? 13) || (28 <=? n) && (n <=? 32))%N.

Fixpoint lstrip (s : string) : string :=
  match s with
  | String c r => if is_space c then lstrip r else s
  | EmptyString => s
  end.

(** Drops trailing whitespace: a character is kept when something that is
    not whitespace follows it or it is itself no whitespace. *)
Fixpoint rstrip (s : string) : string :=
  match s with
  | EmptyString => EmptyString
  | String c r =>
      match rstrip r with
      | EmptyString => if is_space c then EmptyString else String c EmptyString
      | r' => String c r'
      end
  end.

Definition strip (s : string) : string := rstrip (lstrip s).

(** [s.split(sep)] for a one-character separator: always at least one field. *)
Fixpoint split (sep : ascii) (s : string) : list string :=
  match s with
  | EmptyString => [EmptyString]
  | String c r =>
      if Ascii.eqb c sep then EmptyString :: split sep r
      else match split sep r with
           | f :: fs => String c f :: fs
           | [] => [String c EmptyString]
           end
  end.

Definition digit_val (c : ascii) : option Z :=
  let n := N_of_ascii c in
  if ((48 <=? n) && (n <=? 57))%N then Some (Z.of_N n - 48) else None.

(** A digit part [digit (["_"] digit)*] read to its end: the value and the
    number of digits. [prev] tells whether the previous character was a
    digit, which an underscore and the end of the string both need. *)
Fixpoint digitpart (acc : Z) (cnt : Z) (prev : bool) (s : string) : option (Z * Z) :=
  match s with
  | EmptyString => if prev then Some (acc, cnt) else None
  | String c r =>
      match digit_val c with
      | Some d => digitpart (10 * acc + d) (cnt + 1) true r
      | None =>
          if Ascii.eqb c "_" && prev then digitpart acc cnt false r else None
      end
  end.

(** An optional sign: [true] for minus, and the rest of the string. *)
Definition take_sign (s : string) : bool * string :=
  match s with
  | String "-" r => (true, r)
  | String "+" r => (false, r)
  | _ => (false, s)
  end.

(** [int(s)] in base 10 *)
Definition int_of_string (s : string) : result Z :=
  let (neg, body) := take_sign (strip s) in
  match digitpart 0 0 false body with
  | Some (n, _) => Ok (if neg then - n else n)
  | None => Raise ValueError
  end.

(** Splits at the first character satisfying [p]: the part before it, and
    the part after it when there is one. *)
Fixpoint break (p : ascii -> bool) (s : string) : string * option string :=
  match s with
  | EmptyString => (EmptyString, None)
  | String c r =>
      if p c then (EmptyString, Some r)
      else let (a, b) := break p r in (String c a, b)
  end.

Definition lower (c : ascii) : ascii :=
  let n := N_of_ascii c in
  if ((65 <=? n) && (n <=? 90))%N then ascii_of_N (n + 32) else c.

Fixpoint lowercase (s : string) : string :=
  match s with
  | EmptyString => EmptyString
  | String c r => String (lower c) (lowercase r)
  end.

(** The double nearest to [m * 10^e], for [m >= 0], with the given sign. *)
Definition decimal (neg : bool) (m e : Z) : spec_float :=
  let f :=
    if m =? 0 then S754_zero false
    else if 0 <=? e then binary_normalize prec emax (m * 10 ^ e) 0 false
    else SFdiv prec emax (exactZ m) (exactZ (10 ^ (- e))) in
  if neg then SFopp f else f.

(** An optional digit part: the empty string counts as no digits. *)
Definition digitpart_opt (s : string) : option (Z * Z) :=
  match s with
  | EmptyString => Some (0, 0)
  | _ => digitpart 0 0 false s
  end.

(** [float(s)]: [sign? (inf | infinity | nan | number exponent?)] where
    [number] is [digitpart? "." digitpart] or [digitpart "."?]. *)
Definition float_of_string (s : string) : result spec_float :=
  let (neg, body) := take_sign (strip s) in
  let low := lowercase body in
  if String.eqb low "inf" || String.eqb low "infinity" then Ok (S754_infinity neg)
  else if String.eqb low "nan" then Ok S754_nan
  else
    let (num, ex) := break (fun c => Ascii.eqb (lower c) "e") body in
    let (ipart, fpart) := break (fun c => Ascii.eqb c ".") num in
    let exponent :=
      match ex with
      | None => Some 0
      | Some es =>
          let (eneg, ebody) := take_sign es in
          match digitpart 0 0 false ebody with
          | Some (n, _) => Some (if eneg then - n else n)
          | None => None
          end
      end in
    let frac := match fpart with None => EmptyString | Some f => f end in
    match digitpart_opt ipart, digitpart_opt frac, exponent with
    | Some (i, ci), Some (f, cf), Some e =>
        if ci + cf =? 0 then Raise ValueError
        else Ok (decimal neg (i * 10 ^ cf + f) (e - cf))
    | _, _, _ => Raise ValueError
    end.

(** [int(v)]: an int is returned as it is, a string is parsed, a float is
    truncated towards zero. *)
Definition int (v : value) : result Z :=
  match v with
  | PInt z => Ok z
  | PStr s => int_of_string s
  | PFloat (S754_zero _) => Ok 0
  | PFloat (S754_finite sg m e) =>
      Ok (cond_Zopp sg (if 0 <=? e then Zpos m * 2 ^ e else Zpos m / 2 ^ (- e)))
  | PFloat (S754_infinity _) => Raise OverflowError
  | PFloat S754_nan => Raise ValueError
  | PNone => Raise TypeError
  end.

(** [float(v)] *)
Definition float (v : value) : result spec_float :=
  match v with
  | PStr s => float_of_string s
  | PNone => Raise TypeError
  | _ => as_float v
  end.

(** [range(start, stop, step)] as a list; a zero step is a [ValueError]. *)
Definition range_len (start stop step : Z) : Z :=
  if 0 <? step then (if start <? stop then (stop - start - 1) / step + 1 else 0)
  else (if stop <? start then (start - stop - 1) / (- step) + 1 else 0).

Definition range (start stop step : Z) : result (list Z) :=
  if step =? 0 then Raise ValueError
  else Ok (map (fun i => start + Z.of_nat i * step)
               (seq 0 (Z.to_nat (range_len start stop step)))).

(** [itertools.product] of five lists: the rightmost list advances fastest. *)
Definition product5 {A B C D E} (la : list A) (lb : list B) (lc : list C)
    (ld : list D) (le : list E) : list (A * B * C * D * E) :=
  flat_map (fun a =>
  flat_map (fun b =>
  flat_map (fun c =>
  flat_map (fun d =>
  map (fun e => (a, b, c, d, e)) le) ld) lc) lb) la.

End Py.

(** ** The test bench: devices, commands, results file *)

Inductive device : Type := Slave | Master.

(** What the script asks of its collaborators, in the order it asks. *)
Inductive command : Type :=
| Connect (d : device) (serialPort monPort : string)
| SetAtten (atten : Py.value)
| Reset (d : device)
| SetPhy (d : device) (phy : string)
| SetTxPower (d : device) (power : string)
| RxTest (d : device) (channel phy : string)
| TxTestVS (d : device) (channel phy packetLength numPackets : string)
| Wait (seconds : Z)
| EndTest (d : device).

(** One line of the results file. *)
Record row : Type := mkRow {
  r_packetLen : string;
  r_numPkt : string;
  r_phy : string;
  r_atten : Py.value;
  r_txPower : string;
  r_chan : string;
  r_perMaster : Py.value;
  r_perSlave : Py.value
}.

Inductive line : Type :=
| Data (r : row)
| Blank.

(** The environment of a run. The device sessions ([BLE_hci]) and the
    attenuator ([mini_RCDAT_USB]) are imported modules, not part of the
    script, so a run takes them as a parameter: whether the host is the one
    with the RF attenuator ([rf_switch], the hostname test of line 41), and
    what a device answers to an end-test command given everything that was
    sent before, which by the interface description is the received-packet
    count or nothing ([None]). *)
Record bench : Type := mkBench {
  rf_switch : bool;
  endTestFunc : list command -> device -> option N
}.

(** The parsed command line. [delay], [limit] and [step] hold the int
    default or the string given; [attens] has no default. *)
Record arguments : Type := mkArgs {
  slaveSerial : string;
  masterSerial : string;
  results : string;
  delay : Py.value;
  limit : Py.value;
  phys : string;
  channel : string;
  txpows : string;
  attens : option string;
  step : Py.value;
  pktlen : string;
  numpkt : string;
  mtp : string;
  stp : string
}.

Definition default_args (slave master res : string) : arguments :=
  {| slaveSerial := slave; masterSerial := master; results := res;
     delay := Py.PInt 5; limit := Py.PInt 0; phys := "1"; channel := "0";
     txpows := "0"; attens := None; step := Py.PInt 10; pktlen := "250";
     numpkt := "5000"; mtp := ""; stp := "" |}.

(** ** The interpreter state and its monad *)

(** The script's mutable variables, the commands sent so far (latest first)
    and the lines written to the results file (latest first).
    [perMaster] and [perSlave] are unbound until first assigned. *)
Record state : Type := mkState {
  log : list command;
  written : list line;
  per_100 : Z;
  perMax : Py.value;
  perMaster : option Py.value;
  perSlave : option Py.value
}.

Inductive outcome (A : Type) : Type :=
| Done (a : A)
| Uncaught (e : Py.exn)
| NoFuel.
Arguments Done {A} a.
Arguments Uncaught {A} e.
Arguments NoFuel {A}.

Definition M (A : Type) : Type := state -> outcome A * state.

Definition ret {A} (a : A) : M A := fun s => (Done a, s).

Definition bind {A B} (m : M A) (k : A -> M B) : M B :=
  fun s =>
    match m s with
    | (Done a, s') => k a s'
    | (Uncaught e, s') => (Uncaught e, s')
    | (NoFuel, s') => (NoFuel, s')
    end.

Notation "x <- m ;; k" := (bind m (fun x => k))
  (at level 61, m at next level, right associativity).
Notation "m ;; k" := (bind m (fun _ => k))
  (at level 61, right associativity).

Definition lift {A} (r : Py.result A) : M A :=
  fun s =>
    match r with
    | Py.Ok a => (Done a, s)
    | Py.Raise e => (Uncaught e, s)
    end.

Definition get {A} (f : state -> A) : M A := fun s => (Done (f s), s).

Definition modify (f : state -> state) : M unit := fun s => (Done tt, f s).

Definition send (c : command) : M unit :=
  modify (fun s => mkState (c :: log s) (written s) (per_100 s) (perMax s)
                           (perMaster s) (perSlave s)).

Definition write (l : line) : M unit :=
  modify (fun s => mkState (log s) (l :: written s) (per_100 s) (perMax s)
                           (perMaster s) (perSlave s)).

Definition set_per_100 (n : Z) : M unit :=
  modify (fun s => mkState (log s) (written s) n (perMax s)
                           (perMaster s) (perSlave s)).

Definition set_perMax (v : Py.value) : M unit :=
  modify (fun s => mkState (log s) (written s) (per_100 s) v
                           (perMaster s) (perSlave s)).

Definition set_perMaster (v : Py.value) : M unit :=
  modify (fun s => mkState (log s) (written s) (per_100 s) (perMax s)
                           (Some v) (perSlave s)).

Definition set_perSlave (v : Py.value) : M unit :=
  modify (fun s => mkState (log s) (written s) (per_100 s) (perMax s)
                           (perMaster s) (Some v)).

(** Reading a variable that was never assigned is Python's [NameError]. *)
Definition read (f : state -> option Py.value) : M Py.value :=
  fun s =>
    match f s with
    | Some v => (Done v, s)
    | None => (Uncaught Py.NameError, s)
    end.

Definition when (b : bool) (m : M unit) : M unit := if b then m else ret tt.

(** [for x in l: body x] *)
Fixpoint for_each {A} (l : list A) (body : A -> M unit) : M unit :=
  match l with
  | [] => ret tt
  | x :: l' => body x ;; for_each l' body
  end.

(** ** The script *)

Inductive ctl : Type := Continue | Break.

Definition tuple : Type := (string * string * string * string * string)%type.

Definition RETRY : Z := 2.

Section Script.

Variable hw : bench.
Variable args : arguments.

(** [d.endTestFunc(None)]: the command is sent and the device's answer,
    a count or [None], is returned. *)
Definition end_test (d : device) : M Py.value :=
  fun s =>
    (Done (match endTestFunc hw (log s) d with
           | Some n => Py.PInt (Z.of_N n)
           | None => Py.PNone
           end),
     mkState (EndTest d :: log s) (written s) (per_100 s) (perMax s)
             (perMaster s) (perSlave s)).

(** [sleep(n)] refuses a negative length. *)
Definition sleep (n : Z) : M unit :=
  if n <? 0 then lift (Py.Raise Py.ValueError) else send (Wait n).

(** [count / int(numPkt) * 100], operands evaluated left to right. *)
Definition per_of (count : Py.value) (numPkt : string) : M Py.value :=
  n <- lift (Py.int (Py.PStr numPkt)) ;;
  q <- lift (Py.truediv count (Py.PInt n)) ;;
  lift (Py.mul q (Py.PInt 100)).

(** The body of [while per_100 < RETRY] (lines 142-211): one two-way
    measurement. The short settling sleeps, the prints and the timing are
    left out. *)
Definition attempt (t : tuple) (atten : Py.value) : M ctl :=
  let '(packetLen, numPkt, phy, txPower, chan) := t in
  when (rf_switch hw) (send (SetAtten atten)) ;;
  send (Reset Slave) ;;
  send (Reset Master) ;;
  send (SetPhy Master phy) ;;
  send (SetTxPower Slave txPower) ;;
  send (SetTxPower Master txPower) ;;
  send (RxTest Slave chan phy) ;;
  send (TxTestVS Master chan phy packetLen numPkt) ;;
  d <- lift (Py.int (delay args)) ;;
  sleep d ;;
  _ <- end_test Master ;;
  c <- end_test Slave ;;
  ps <- per_of c numPkt ;;
  set_perSlave ps ;;
  send (Reset Slave) ;;
  send (Reset Master) ;;
  send (RxTest Master chan phy) ;;
  send (TxTestVS Slave chan phy packetLen numPkt) ;;
  d <- lift (Py.int (delay args)) ;;
  sleep d ;;
  _ <- end_test Slave ;;
  c <- end_test Master ;;
  pm <- per_of c numPkt ;;
  set_perMaster pm ;;
  pm <- read perMaster ;;
  ps <- read perSlave ;;
  if Py.is_none pm || Py.is_none ps then
    p <- get per_100 ;;
    set_per_100 (p + 1) ;;
    ret Continue
  else
    mx <- get perMax ;;
    g <- lift (Py.gt pm mx) ;;
    when g (set_perMax pm) ;;
    mx <- get perMax ;;
    g <- lift (Py.gt ps mx) ;;
    when g (set_perMax ps) ;;
    ret Break.

(** [while per_100 < RETRY: body], unrolled at most [fuel] times. *)
Fixpoint while_retry (fuel : nat) (body : M ctl) : M unit :=
  p <- get per_100 ;;
  if p <? RETRY then
    match fuel with
    | O => fun s => (NoFuel, s)
    | S fuel' =>
        c <- body ;;
        match c with
        | Continue => while_retry fuel' body
        | Break => ret tt
        end
    end
  else ret tt.

(** The body of [for atten in attens] (lines 140-222): the retry loop, the
    give-up override and the row. *)
Definition trial (t : tuple) (atten : Py.value) : M unit :=
  let '(packetLen, numPkt, phy, txPower, chan) := t in
  p <- get per_100 ;;
  while_retry (Z.to_nat (RETRY - p)) (attempt t atten) ;;
  p <- get per_100 ;;
  when (RETRY <=? p)
    (set_perMaster (Py.PInt 100) ;;
     set_perSlave (Py.PInt 100) ;;
     set_perMax (Py.PInt 100)) ;;
  pm <- read perMaster ;;
  ps <- read perSlave ;;
  write (Data (mkRow packetLen numPkt phy atten txPower chan pm ps)).

(** The body of the outer [for] (lines 138-222). *)
Definition sweep_tuple (levels : list Py.value) (t : tuple) : M unit :=
  set_per_100 0 ;;
  for_each levels (trial t).

Definition sweep (tuples : list tuple) (levels : list Py.value) : M unit :=
  for_each tuples (sweep_tuple levels).

(** *** Parameter expansion (lines 84-99) *)

Definition expand (s : string) : list string := Py.split "," (Py.strip s).

Definition tuples : list tuple :=
  Py.product5 (expand (pktlen args)) (expand (numpkt args)) (expand (phys args))
              (expand (txpows args)) (expand (channel args)).

Definition attenuations : Py.result (list Py.value) :=
  match attens args with
  | None =>
      Py.rbind (Py.int (step args)) (fun s0 =>
      Py.rbind
        (if s0 =? 0 then Py.Ok [20; 70]
         else Py.rbind (Py.int (step args)) (fun s1 => Py.range 20 90 s1))
        (fun l => Py.Ok (map Py.PInt (l ++ [90]))))
  | Some a => Py.Ok (map Py.PStr (expand a))
  end.

(** *** The exit decision (lines 235-240) *)

Definition exit_code : M Z :=
  l <- lift (Py.float (limit args)) ;;
  if Py.ne (Py.PFloat l) (Py.PFloat (S754_zero false)) then
    mx <- get perMax ;;
    l' <- lift (Py.float (limit args)) ;;
    g <- lift (Py.gt mx (Py.PFloat l')) ;;
    if g then ret 1 else ret 0
  else ret 0.

(** *** The whole script, in its four phases *)

(** Lines 84-135: the attenuation levels, the two device sessions, the
    running maximum. *)
Definition startup : M (list Py.value) :=
  levels <- lift attenuations ;;
  send (Connect Slave (slaveSerial args) (stp args)) ;;
  send (Connect Master (masterSerial args) (mtp args)) ;;
  set_perMax (Py.PInt 0) ;;
  ret levels.

(** Lines 224-231: the last reset and the closing blank line. *)
Definition shutdown : M unit :=
  send (Reset Slave) ;;
  send (Reset Master) ;;
  write Blank.

Definition main : M Z :=
  levels <- startup ;;
  sweep tuples levels ;;
  shutdown ;;
  exit_code.

End Script.

Definition init : state :=
  {| log := []; written := []; per_100 := 0; perMax := Py.PInt 0;
     perMaster := None; perSlave := None |}.

Definition run (hw : bench) (args : arguments) : outcome Z * state :=
  main hw args init.


(** ** Vocabulary of the statements *)

(** The PER formula of lines 175 and 193, [count / n * 100]. *)
Definition per (count : Py.value) (n : Z) : Py.result Py.value :=
  Py.rbind (Py.truediv count (Py.PInt n)) (fun q => Py.mul q (Py.PInt 100)).

(** A number that is not a NaN. *)
Definition real (v : Py.value) : bool :=
  match Py.num_exact v with
  | Some S754_nan => false
  | Some _ => true
  | None => false
  end.

(** [a <= b] and [a == b] on numbers, by exact value. *)
Definition vleb (a b : Py.value) : bool :=
  match Py.num_exact a, Py.num_exact b with
  | Some x, Some y => Py.fleb x y
  | _, _ => false
  end.

Definition veqb (a b : Py.value) : bool :=
  match Py.num_exact a, Py.num_exact b with
  | Some x, Some y => Py.feqb x y
  | _, _ => false
  end.

(** The data rows of the results file, oldest first, and the PER values
    they record. *)
Definition rows_of (ls : list line) : list row :=
  flat_map (fun l => match l with Data r => [r] | Blank => [] end) (rev ls).

Definition recorded (ls : list line) : list Py.value :=
  flat_map (fun r => [r_perMaster r; r_perSlave r]) (rows_of ls).

(** The commands of one measurement, latest first: lines 147-171 before
    the first pair of end-test calls, lines 179-189 before the second. *)
Definition setup_cmds (rf : bool) (t : tuple) (atten : Py.value) (d : Z)
  : list command :=
  let '(packetLen, numPkt, phy, txPower, chan) := t in
  [Wait d; TxTestVS Master chan phy packetLen numPkt; RxTest Slave chan phy;
   SetTxPower Master txPower; SetTxPower Slave txPower; SetPhy Master phy;
   Reset Master; Reset Slave] ++ (if rf then [SetAtten atten] else []).

Definition swap_cmds (t : tuple) (d : Z) : list command :=
  let '(packetLen, numPkt, phy, txPower, chan) := t in
  [Wait d; TxTestVS Slave chan phy packetLen numPkt; RxTest Master chan phy;
   Reset Master; Reset Slave].

(** What the slave has seen when its count is read on line 175, and the
    master when its count is read on line 193, after the history [l]. *)
Definition history_slave (rf : bool) (t : tuple) (atten : Py.value) (d : Z)
    (l : list command) : list command :=
  EndTest Master :: setup_cmds rf t atten d ++ l.

Definition history_master (rf : bool) (t : tuple) (atten : Py.value) (d : Z)
    (l : list command) : list command :=
  EndTest Slave :: swap_cmds t d ++ EndTest Slave :: history_slave rf t atten d l.

(** The numPkt field of a parameter tuple. *)
Definition numPkt_of (t : tuple) : string :=
  let '(_, numPkt, _, _, _) := t in numPkt.

(** The measurement started in state [s] gets through its waits and reads
    the counts [cs] (slave, line 175) and [cm] (master, line 193), with
    [d] the delay and [n] the packet number. *)
Definition obtains (hw : bench) (args : arguments) (t : tuple)
    (atten : Py.value) (s : state) (d n : Z) (cs cm : N) : Prop :=
  Py.int (delay args) = Py.Ok d /\ 0 <= d /\
  Py.int (Py.PStr (numPkt_of t)) = Py.Ok n /\
  endTestFunc hw (history_slave (rf_switch hw) t atten d (log s)) Slave = Some cs /\
  endTestFunc hw (history_master (rf_switch hw) t atten d (log s)) Master = Some cm.


(** The running maximum after seeing [v] (lines 205-208). *)
Definition bump (mx v : Py.value) : Py.value :=
  match Py.gt v mx with
  | Py.Ok true => v
  | _ => mx
  end.

(** The row written for a parameter tuple at an attenuation level. *)
Definition row_of (t : tuple) (atten pm ps : Py.value) : row :=
  let '(packetLen, numPkt, phy, txPower, chan) := t in
  mkRow packetLen numPkt phy atten txPower chan pm ps.

(** The state after a level was given up without measuring (lines
    213-220). *)
Definition gave_up (t : tuple) (atten : Py.value) (s : state) : state :=
  {| log := log s;
     written := Data (row_of t atten (Py.PInt 100) (Py.PInt 100)) :: written s;
     per_100 := per_100 s;
     perMax := Py.PInt 100;
     perMaster := Some (Py.PInt 100);
     perSlave := Some (Py.PInt 100) |}.

(** The state after a level was measured with PER values [pm] and [ps],
    the commands [cmds] having been sent. *)
Definition measured (t : tuple) (atten pm ps : Py.value) (cmds : list command)
    (s : state) : state :=
  {| log := cmds;
     written := Data (row_of t atten pm ps) :: written s;
     per_100 := per_100 s;
     perMax := bump (bump (perMax s) pm) ps;
     perMaster := Some pm;
     perSlave := Some ps |}.

(** What holds of the state whenever a level is entered: the running
    maximum is a real number, and it is at most 100 once the retry budget
    is used up. *)
Definition sweep_inv (s : state) : Prop :=
  real (perMax s) = true /\
  (RETRY <= per_100 s -> vleb (perMax s) (Py.PInt 100) = true).


(** The state in which the sweep starts (after line 135) and the one in
    which the limit is checked (after line 231). *)
Definition started (args : arguments) : state :=
  {| log := [Connect Master (masterSerial args) (mtp args);
             Connect Slave (slaveSerial args) (stp args)];
     written := [];
     per_100 := 0;
     perMax := Py.PInt 0;
     perMaster := None;
     perSlave := None |}.

Definition closed (s : state) : state :=
  {| log := Reset Master :: Reset Slave :: log s;
     written := Blank :: written s;
     per_100 := per_100 s;
     perMax := perMax s;
     perMaster := perMaster s;
     perSlave := perSlave s |}.

(** The state with the retry counter back at zero (line 138). *)
Definition fresh (s : state) : state :=
  {| log := log s;
     written := written s;
     per_100 := 0;
     perMax := perMax s;
     perMaster := perMaster s;
     perSlave := perSlave s |}.

(** A packet number that reads as a positive integer. *)
Definition positive_count (numPkt : string) : Prop :=
  exists n, Py.int (Py.PStr numPkt) = Py.Ok n /\ 0 < n.

(** The parameter tuple and attenuation level a row was written for. *)
Definition key (r : row) : tuple * Py.value :=
  ((r_packetLen r, r_numPkt r, r_phy r, r_txPower r, r_chan r), r_atten r).

(** Every tuple with every level, tuples outermost. *)
Definition schedule (ts : list tuple) (levels : list Py.value)
  : list (tuple * Py.value) :=
  flat_map (fun t => map (fun a => (t, a)) levels) ts.

(** The sweep of a run gets to its end, in state [s]. *)
Definition swept (hw : bench) (args : arguments) (s : state) : Prop :=
  exists levels,
    attenuations args = Py.Ok levels /\
    sweep hw args (tuples args) levels (started args) = (Done tt, s).

(** ** Benches and command lines used as examples *)

(** Devices that report [n] received packets at every end-test call. *)
Definition steady_bench (rf : bool) (n : N) : bench :=
  mkBench rf (fun _ _ => Some n).

(** Devices that never report a count. *)
Definition silent_bench : bench := mkBench false (fun _ _ => None).

(** [dtm_sweep.py s m r -a 20,90 -d 1]: packet length 250, 5000 packets,
    PHY 1, TX power 0, channel 0 by default. *)
Definition example_args : arguments :=
  {| slaveSerial := "s"; masterSerial := "m"; results := "r";
     delay := Py.PStr "1"; limit := Py.PInt 0; phys := "1"; channel := "0";
     txpows := "0"; attens := Some "20,90"; step := Py.PInt 10;
     pktlen := "250"; numpkt := "5000"; mtp := ""; stp := "" |}.

Definition example_tuple : tuple := ("250", "5000", "1", "0", "0").

(** The same command line with another delay, limit or step. *)
Definition with_delay (v : Py.value) (a : arguments) : arguments :=
  mkArgs (slaveSerial a) (masterSerial a) (results a) v (limit a) (phys a)
         (channel a) (txpows a) (attens a) (step a) (pktlen a) (numpkt a)
         (mtp a) (stp a).

Definition with_limit (v : Py.value) (a : arguments) : arguments :=
  mkArgs (slaveSerial a) (masterSerial a) (results a) (delay a) v (phys a)
         (channel a) (txpows a) (attens a) (step a) (pktlen a) (numpkt a)
         (mtp a) (stp a).

Definition with_step (v : Py.value) (a : arguments) : arguments :=
  mkArgs (slaveSerial a) (masterSerial a) (results a) (delay a) (limit a) (phys a)
         (channel a) (txpows a) (attens a) v (pktlen a) (numpkt a)
         (mtp a) (stp a).

(** One hundred, as the double the PER formula produces. *)
Definition hundred : spec_float := S754_finite false 7036874417766400 (-46).

(** The state after all of [levels] were given up for the tuple [t]. *)
Definition gave_up_all (t : tuple) (levels : list Py.value) (s : state) : state :=
  fold_left (fun s' a => gave_up t a s') levels s.

(** A state with the retry budget used up, nothing sent and nothing
    written. *)
Definition exhausted : state :=
  {| log := []; written := []; per_100 := 2; perMax := Py.PInt 0;
     perMaster := None; perSlave := None |}.

(** ** Notions used in the proofs *)

(** Floats that are zero or finite; floats that are no NaN; floats that
    are not negative. *)
Definition plain (x : spec_float) : bool :=
  match x with
  | S754_zero _ | S754_finite _ _ _ => true
  | _ => false
  end.

Definition notnan (x : spec_float) : bool :=
  match x with
  | S754_nan => false
  | _ => true
  end.

Definition nonneg (f : spec_float) : bool :=
  match f with
  | S754_zero _ | S754_finite false _ _ | S754_infinity false => true
  | _ => false
  end.

(** The shift record keeps no trace of discarded bits. *)
Definition clean (r : shr_record) : bool := negb (shr_r r) && negb (shr_s r).

(** The mantissa, or the next one when bits were discarded: an upper bound
    on what rounding can return. *)
Definition ceil_rec (r : shr_record) : Z :=
  if clean r then shr_m r else shr_m r + 1.

Definition ceil_loc (m : Z) (l : location) : Z :=
  match l with
  | loc_Exact => m
  | loc_Inexact _ => m + 1
  end.

(** What a measurement leaves untouched when it dies. *)
Definition died (s s' : state) : Prop :=
  written s' = written s /\ per_100 s' = per_100 s /\ perMax s' = perMax s.

(** How far a loop body, or a loop, got with the rows it owes: on normal
    completion it has written rows with exactly the keys [owed], when it
    died a part of them, and it never runs out of fuel. *)
Definition progress (o : outcome unit) (s s' : state)
    (owed : list (tuple * Py.value)) : Prop :=
  exists done, rows_of (written s') = rows_of (written s) ++ done /\
    match o with
    | Done _ => map key done = owed
    | Uncaught _ => exists rest, owed = map key done ++ rest
    | NoFuel => False
    end.

(** What the sweep keeps track of: its invariant, that no recorded value
    exceeds the running maximum, and that the running maximum is still 0
    or one of the recorded values. *)
Definition tracked (s : state) : Prop :=
  sweep_inv s /\
  (forall v, In v (recorded (written s)) -> vleb v (perMax s) = true) /\
  (veqb (perMax s) (Py.PInt 0) = true \/
   exists v, In v (recorded (written s)) /\ veqb v (perMax s) = true).

Definition nonneg_rows (s : state) : Prop :=
  forall v, In v (recorded (written s)) -> vleb (Py.PInt 0) v = true.

(** The running maximum does not go down. *)
Definition grows (s s' : state) : Prop := vleb (perMax s) (perMax s') = true.

(** ** Further vocabulary *)

(** The commands of one complete measurement, latest first (lines
    147-193). *)
Definition protocol (rf : bool) (t : tuple) (atten : Py.value) (d : Z)
  : list command :=
  EndTest Master :: history_master rf t atten d [].

Definition is_SetAtten (c : command) : bool :=
  match c with
  | SetAtten _ => true
  | _ => false
  end.







(** Devices whose receiver reports [n] packets and whose transmitter
    reports nothing: a count is given only right after the other device's
    end-test call. *)
Definition receiver_bench (rf : bool) (n : N) : bench :=
  mkBench rf (fun l _ => match l with
                         | EndTest _ :: _ => Some n
                         | _ => None
                         end).





(** ** The model at work *)

Module Examples.
Import Py.

Example int_of_text :
  int (PStr " 5000 ") = Ok 5000 /\ int (PStr "-5_0") = Ok (-50) /\
  int (PStr "007") = Ok 7 /\ int (PInt 10) = Ok 10 /\
  int (PStr "abc") = Raise ValueError /\ int (PStr "") = Raise ValueError /\
  int (PStr "5__0") = Raise ValueError /\ int (PStr "1.5") = Raise ValueError /\
  int PNone = Raise TypeError.
Proof. repeat split. Qed.

(** 0.1 is 0x1.999999999999ap-4 and 1e400 overflows to infinity. *)
Example float_of_text :
  float (PStr "0.1") = Ok (S754_finite false 7205759403792794 (-56)) /\
  float (PStr "1e2") = Ok hundred /\ float (PStr "100.") = Ok hundred /\
  float (PStr "-0") = Ok (S754_zero true) /\ float (PInt 0) = Ok (S754_zero false) /\
  float (PStr "1e400") = Ok (S754_infinity false) /\
  float (PStr "NaN") = Ok S754_nan /\
  float (PStr "abc") = Raise ValueError /\ float (PStr ".") = Raise ValueError /\
  float (PStr "1e") = Raise ValueError.
Proof. repeat split. Qed.

Example strip_and_split :
  strip "  250,1 " = "250,1" /\
  split "," "250,1" = ["250"; "1"] /\
  split "," "250" = ["250"] /\
  split "," "" = [""] /\
  split "," "1,,2," = ["1"; ""; "2"; ""].
Proof. repeat split. Qed.

(** 1/3*100 is 33.33333333333333 (0x1.0aaaaaaaaaaaap+5), 4999/5000*100 is
    99.98. *)
Example per_of_counts :
  per (PInt 5000) 5000 = Ok (PFloat hundred) /\
  per (PInt 0) 5000 = Ok (PFloat (S754_zero false)) /\
  per (PInt 1) 3 = Ok (PFloat (S754_finite false 4691249611844266 (-47))) /\
  per (PInt 4999) 5000 = Ok (PFloat (S754_finite false 7035467042882847 (-46))) /\
  per (PInt 1) 0 = Raise ZeroDivisionError /\
  per PNone 5000 = Raise TypeError.
Proof. repeat split. Qed.

Example comparisons :
  gt (PFloat hundred) (PInt 0) = Ok true /\
  gt (PFloat hundred) (PInt 100) = Ok false /\
  gt (PInt 100) (PFloat hundred) = Ok false /\
  gt (PInt 101) (PFloat hundred) = Ok true /\
  gt (PFloat S754_nan) (PInt 0) = Ok false /\
  gt PNone (PInt 0) = Raise TypeError /\
  ne (PFloat (S754_zero true)) (PFloat (S754_zero false)) = false /\
  ne (PFloat S754_nan) (PFloat (S754_zero false)) = true.
Proof. repeat split. Qed.

Example ranges :
  range 20 90 10 = Ok [20; 30; 40; 50; 60; 70; 80] /\
  range 20 90 25 = Ok [20; 45; 70] /\
  range 20 90 70 = Ok [20] /\
  range 20 90 (-5) = Ok [] /\
  range 20 90 0 = Raise ValueError.
Proof. repeat split. Qed.

Example product_order :
  product5 ["37"; "250"] ["5000"] ["1"; "2"] ["0"] ["0"; "39"] =
    [("37", "5000", "1", "0", "0"); ("37", "5000", "1", "0", "39");
     ("37", "5000", "2", "0", "0"); ("37", "5000", "2", "0", "39");
     ("250", "5000", "1", "0", "0"); ("250", "5000", "1", "0", "39");
     ("250", "5000", "2", "0", "0"); ("250", "5000", "2", "0", "39")].
Proof. reflexivity. Qed.

Example default_levels :
  attenuations (default_args "s" "m" "r")
  = Ok (map PInt [20; 30; 40; 50; 60; 70; 80; 90]) /\
  attenuations (with_step (PStr "0") (default_args "s" "m" "r"))
  = Ok (map PInt [20; 70; 90]) /\
  attenuations (with_step (PStr "-5") (default_args "s" "m" "r"))
  = Ok [PInt 90] /\
  attenuations (with_step (PStr "ten") (default_args "s" "m" "r"))
  = Raise ValueError /\
  attenuations example_args = Ok [PStr "20"; PStr "90"].
Proof. repeat split. Qed.

End Examples.

(** ** Facts about the binary64 model *)

Module FloatFacts.
Import Py.

Lemma cond_Zopp_mul (s : bool) (a k : Z) :
  cond_Zopp s (a * k) = cond_Zopp s a * k.
Proof. destruct s; simpl; lia. Qed.

(** Rescaling to a lower exponent multiplies by a power of two. *)
Lemma scaled_shift (x : spec_float) (e e' : Z) :
  e <= e' -> e' <= fexpo x e' ->
  scaled x e = scaled x e' * 2 ^ (e' - e).
Proof.
  intros H1 H2. destruct x as [s| s | |s m ex]; try reflexivity.
  unfold scaled. unfold fexpo in H2.
  rewrite <- cond_Zopp_mul. f_equal.
  rewrite <- Z.mul_assoc, <- Z.pow_add_r by lia.
  do 2 f_equal. lia.
Qed.

Lemma compare_scale (a b k : Z) :
  0 < k -> Z.compare (a * k) (b * k) = Z.compare a b.
Proof.
  intros Hk. destruct (Z.compare_spec a b) as [H|H|H].
  - subst. apply Z.compare_refl.
  - apply Z.compare_lt_iff. nia.
  - apply Z.compare_gt_iff. nia.
Qed.

(** Two plain floats compare as their mantissas at any common lower
    exponent. *)
Lemma fcompare_scaled (x y : spec_float) (e : Z) :
  plain x = true -> plain y = true ->
  e <= fexpo x e -> e <= fexpo y e ->
  fcompare x y = Some (Z.compare (scaled x e) (scaled y e)).
Proof.
  intros Px Py Hx Hy.
  set (e0 := Z.min (fexpo x (fexpo y 0)) (fexpo y (fexpo x 0))).
  assert (He0 : fcompare x y = Some (Z.compare (scaled x e0) (scaled y e0))).
  { destruct x, y; try discriminate; reflexivity. }
  rewrite He0. f_equal.
  assert (Hle : e <= e0 \/ (is_fzero x = true /\ is_fzero y = true)).
  { destruct x, y; try discriminate; simpl in *; unfold e0; simpl; lia. }
  destruct Hle as [Hle | [Zx Zy]].
  - rewrite (scaled_shift x e e0), (scaled_shift y e e0); try assumption.
    + symmetry. apply compare_scale. apply Z.pow_pos_nonneg; lia.
    + destruct x, y; try discriminate; simpl in *; unfold e0; simpl; lia.
    + destruct x, y; try discriminate; simpl in *; unfold e0; simpl; lia.
  - destruct x, y; try discriminate. reflexivity.
Qed.

Lemma fleb_refl (x : spec_float) : notnan x = true -> fleb x x = true.
Proof.
  destruct x as [s|s| |s m e]; try discriminate; intros _; unfold fleb; simpl.
  - reflexivity.
  - destruct s; reflexivity.
  - rewrite Z.min_id, Z.compare_refl. reflexivity.
Qed.

(** On floats that are no NaN the comparison is total. *)
Lemma fltb_false_fleb (x y : spec_float) :
  notnan x = true -> notnan y = true -> fltb y x = false -> fleb x y = true.
Proof.
  intros Nx Ny.
  destruct (plain x) eqn:Px, (plain y) eqn:Py.
  - unfold fltb, fleb.
    set (e := Z.min (fexpo x 0) (fexpo y 0)).
    rewrite (fcompare_scaled y x e), (fcompare_scaled x y e); try assumption;
      try (destruct x, y; try discriminate; simpl in *; unfold e; simpl; lia).
    rewrite (Z.compare_antisym (scaled x e) (scaled y e)).
    destruct (scaled x e ?= scaled y e); simpl; congruence.
  - destruct x as [| | |], y as [|[]| |]; try discriminate; simpl; auto.
  - destruct x as [|[]| |], y as [| | |]; try discriminate; simpl; auto.
  - destruct x as [|[]| |], y as [|[]| |]; try discriminate; simpl; auto.
Qed.

Lemma fltb_fleb (x y : spec_float) : fltb x y = true -> fleb x y = true.
Proof. unfold fltb, fleb. destruct (fcompare x y) as [[]|]; congruence. Qed.

Lemma fleb_notnan (x y : spec_float) :
  fleb x y = true -> notnan x = true /\ notnan y = true.
Proof. destruct x, y; simpl; try discriminate; auto. Qed.

Lemma fleb_trans (x y z : spec_float) :
  fleb x y = true -> fleb y z = true -> fleb x z = true.
Proof.
  intros Hxy Hyz.
  destruct (fleb_notnan _ _ Hxy) as [Nx Ny], (fleb_notnan _ _ Hyz) as [_ Nz].
  destruct (plain x) eqn:Px, (plain y) eqn:Py, (plain z) eqn:Pz;
    try (destruct x as [|[]| |], y as [|[]| |], z as [|[]| |];
         try discriminate; simpl in *; auto; fail).
  revert Hxy Hyz. unfold fleb.
  set (e := Z.min (fexpo x 0) (Z.min (fexpo y 0) (fexpo z 0))).
  rewrite (fcompare_scaled x y e), (fcompare_scaled y z e),
    (fcompare_scaled x z e); try assumption;
    try (destruct x, y, z; try discriminate; simpl in *; unfold e; simpl; lia).
  destruct (Z.compare_spec (scaled x e) (scaled y e)),
    (Z.compare_spec (scaled y e) (scaled z e)),
    (Z.compare_spec (scaled x e) (scaled z e)); try congruence; lia.
Qed.

Lemma fleb_antisym (x y : spec_float) :
  fleb x y = true -> fleb y x = true -> feqb x y = true.
Proof.
  intros Hxy Hyx.
  destruct (plain x) eqn:Px, (plain y) eqn:Py;
    try (destruct x as [|[]| |], y as [|[]| |];
         try discriminate; simpl in *; auto; fail).
  revert Hxy Hyx. unfold fleb, feqb.
  set (e := Z.min (fexpo x 0) (fexpo y 0)).
  rewrite (fcompare_scaled y x e), (fcompare_scaled x y e); try assumption;
    try (destruct x, y; try discriminate; simpl in *; unfold e; simpl; lia).
  destruct (Z.compare_spec (scaled x e) (scaled y e)),
    (Z.compare_spec (scaled y e) (scaled x e)); try congruence; lia.
Qed.


(** *** Rounding *)

Lemma fexp_eq (e : Z) : fexp prec emax e = Z.max (e - 53) (-1074).
Proof. reflexivity. Qed.

Lemma digits2_pos_bounds (p : positive) :
  2 ^ (Zpos (digits2_pos p) - 1) <= Zpos p < 2 ^ Zpos (digits2_pos p).
Proof.
  induction p as [p IH|p IH|]; cbn [digits2_pos].
  - rewrite Pos2Z.inj_succ.
    replace (Z.succ (Zpos (digits2_pos p)) - 1) with (Z.succ (Zpos (digits2_pos p) - 1)) by lia.
    rewrite !Z.pow_succ_r by lia. lia.
  - rewrite Pos2Z.inj_succ.
    replace (Z.succ (Zpos (digits2_pos p)) - 1) with (Z.succ (Zpos (digits2_pos p) - 1)) by lia.
    rewrite !Z.pow_succ_r by lia. lia.
  - simpl. lia.
Qed.

(** A positive number below another has no more digits. *)
Lemma digits_le (a b : positive) (k : Z) :
  0 <= k -> Zpos a <= Zpos b * 2 ^ k ->
  Zpos (digits2_pos a) <= Zpos (digits2_pos b) + k.
Proof.
  intros Hk H.
  pose proof (digits2_pos_bounds a) as [Ha _].
  pose proof (digits2_pos_bounds b) as [_ Hb].
  assert (Hlt : 2 ^ (Zpos (digits2_pos a) - 1) < 2 ^ (Zpos (digits2_pos b) + k)).
  { rewrite Z.pow_add_r by lia.
    assert (0 < 2 ^ k) by (apply Z.pow_pos_nonneg; lia). nia. }
  apply Z.pow_lt_mono_r_iff in Hlt; lia.
Qed.

Lemma iter_pos_nat {A} (f : A -> A) (p : positive) (x : A) :
  iter_pos f p x = Nat.iter (Pos.to_nat p) f x.
Proof.
  revert x. induction p as [p IH|p IH|]; intros x; cbn [iter_pos].
  - rewrite !IH, Pos2Nat.inj_xI, <- Nat.iter_succ_r.
    replace (S (2 * Pos.to_nat p)) with (Pos.to_nat p + S (Pos.to_nat p))%nat by lia.
    now rewrite Nat.iter_add.
  - rewrite !IH, Pos2Nat.inj_xO.
    replace (2 * Pos.to_nat p)%nat with (Pos.to_nat p + Pos.to_nat p)%nat by lia.
    now rewrite Nat.iter_add.
  - reflexivity.
Qed.

Lemma shr_1_m (r : shr_record) : 0 <= shr_m r -> shr_m (shr_1 r) = shr_m r / 2.
Proof.
  destruct r as [m r s]; cbn [shr_m]. intros H.
  rewrite <- Z.div2_div.
  destruct m as [|[p|p|]|p]; try lia; reflexivity.
Qed.

Lemma shr_1_clean (r : shr_record) :
  0 <= shr_m r -> clean r = true -> Z.even (shr_m r) = true ->
  clean (shr_1 r) = true.
Proof.
  destruct r as [m r s]; unfold clean; cbn [shr_m shr_r shr_s]. intros H C E.
  destruct r, s; try discriminate.
  destruct m as [|[p|p|]|p]; try lia; try discriminate; reflexivity.
Qed.

Lemma shr_iter_m (n : nat) (r : shr_record) :
  0 <= shr_m r -> shr_m (Nat.iter n shr_1 r) = shr_m r / 2 ^ Z.of_nat n.
Proof.
  intros H. induction n as [|n IH].
  - simpl. now rewrite Z.div_1_r.
  - rewrite Nat.iter_succ, shr_1_m.
    + rewrite IH, Nat2Z.inj_succ, Z.pow_succ_r by lia.
      rewrite Z.div_div by (try apply Z.pow_pos_nonneg; lia).
      f_equal. lia.
    + rewrite IH. apply Z.div_pos; [lia | apply Z.pow_pos_nonneg; lia].
Qed.

Lemma shr_iter_clean (n : nat) (r : shr_record) :
  0 <= shr_m r -> clean r = true -> (shr_m r) mod 2 ^ Z.of_nat n = 0 ->
  clean (Nat.iter n shr_1 r) = true.
Proof.
  intros H C. induction n as [|n IH]; intros D.
  - exact C.
  - rewrite Nat.iter_succ.
    rewrite Nat2Z.inj_succ, Z.pow_succ_r in D by lia.
    assert (P : 0 < 2 ^ Z.of_nat n) by (apply Z.pow_pos_nonneg; lia).
    apply Z.mod_divide in D; [|lia]. destruct D as [k Hk].
    apply shr_1_clean.
    + rewrite shr_iter_m by assumption. apply Z.div_pos; lia.
    + apply IH. apply Z.mod_divide; [lia|]. exists (k * 2). lia.
    + rewrite shr_iter_m by assumption.
      replace (shr_m r) with ((k * 2) * 2 ^ Z.of_nat n) by lia.
      rewrite Z.div_mul by lia. rewrite Z.even_mul. simpl. apply orb_true_r.
Qed.

Lemma shr_record_of_loc_m (m : Z) (l : location) :
  shr_m (shr_record_of_loc m l) = m.
Proof. destruct l as [|[]]; reflexivity. Qed.

Lemma ceil_rec_of_loc (m : Z) (l : location) :
  ceil_rec (shr_record_of_loc m l) = ceil_loc m l.
Proof. destruct l as [|[]]; reflexivity. Qed.

Lemma clean_of_loc (m : Z) (l : location) :
  clean (shr_record_of_loc m l) = true -> l = loc_Exact.
Proof. destruct l as [|[]]; cbv; congruence. Qed.

Lemma round_nearest_even_bounds (r : shr_record) :
  shr_m r <= round_nearest_even (shr_m r) (loc_of_shr_record r) <= ceil_rec r.
Proof.
  destruct r as [m [] []]; unfold ceil_rec, clean; cbn; try lia.
  destruct (Z.even m); lia.
Qed.

Lemma shr_fexp_nonneg (m e : Z) (l : location) :
  0 <= m -> 0 <= shr_m (fst (shr_fexp prec emax m e l)).
Proof.
  intros H. unfold shr_fexp, shr.
  destruct (fexp prec emax (Zdigits2 m + e) - e) as [|p|p]; cbn [fst];
    rewrite ?shr_record_of_loc_m; try assumption.
  rewrite iter_pos_nat, shr_iter_m by (now rewrite shr_record_of_loc_m).
  rewrite shr_record_of_loc_m.
  apply Z.div_pos; [lia | apply Z.pow_pos_nonneg; lia].
Qed.

(** Rounding a non-negative mantissa keeps the sign and never gives a
    NaN. *)
Lemma round_aux_sign (sx : bool) (mx ex : Z) (lx : location) :
  0 <= mx ->
  match binary_round_aux prec emax sx mx ex lx with
  | S754_zero s | S754_finite s _ _ | S754_infinity s => s = sx
  | S754_nan => False
  end.
Proof.
  intros H. unfold binary_round_aux.
  destruct (shr_fexp prec emax mx ex lx) as [r1 e1] eqn:E1.
  pose proof (shr_fexp_nonneg mx ex lx H) as N1. rewrite E1 in N1. cbn [fst] in N1.
  pose proof (round_nearest_even_bounds r1) as [B1 _].
  set (m2 := round_nearest_even (shr_m r1) (loc_of_shr_record r1)) in *.
  destruct (shr_fexp prec emax m2 e1 loc_Exact) as [r2 e2] eqn:E2.
  pose proof (shr_fexp_nonneg m2 e1 loc_Exact ltac:(lia)) as N2.
  rewrite E2 in N2. cbn [fst] in N2.
  destruct (shr_m r2) as [|p|p]; try lia; try reflexivity.
  destruct (e2 <=? emax - prec); reflexivity.
Qed.

Section Bound.

(** A positive float of the format, [mB * 2^eB] with its canonical
    exponent. *)
Variable mB : positive.
Variable eB : Z.
Hypothesis canonB : eB = fexp prec emax (Zpos (digits2_pos mB) + eB).
Hypothesis finiteB : eB <= emax - prec.

Lemma shr_fexp_bound (m e : Z) (l : location) :
  0 <= m -> e <= eB -> ceil_loc m l <= Zpos mB * 2 ^ (eB - e) ->
  snd (shr_fexp prec emax m e l) <= eB /\
  ceil_rec (fst (shr_fexp prec emax m e l))
    <= Zpos mB * 2 ^ (eB - snd (shr_fexp prec emax m e l)).
Proof.
  intros Hm He Hc. unfold shr_fexp, shr.
  assert (Hmc : m <= ceil_loc m l) by (destruct l; simpl; lia).
  destruct (fexp prec emax (Zdigits2 m + e) - e) as [|p|p] eqn:En; cbn [fst snd];
    rewrite ?ceil_rec_of_loc; try (split; assumption).
  rewrite fexp_eq in En. rewrite fexp_eq in canonB.
  assert (He' : e + Zpos p <= eB).
  { destruct m as [|pm|pm]; try lia.
    - cbn [Zdigits2] in En. lia.
    - cbn [Zdigits2] in En.
      pose proof (digits_le pm mB (eB - e) ltac:(lia) ltac:(lia)). lia. }
  split; [exact He'|].
  set (K := Zpos mB * 2 ^ (eB - (e + Zpos p))).
  assert (P : 0 < 2 ^ Zpos p) by (apply Z.pow_pos_nonneg; lia).
  assert (HK : Zpos mB * 2 ^ (eB - e) = 2 ^ Zpos p * K).
  { unfold K. rewrite (Z.mul_comm (2 ^ Zpos p)), <- Z.mul_assoc, <- Z.pow_add_r by lia.
    do 2 f_equal. lia. }
  rewrite HK in Hc.
  set (R := iter_pos shr_1 p (shr_record_of_loc m l)).
  assert (HR : shr_m R = m / 2 ^ Zpos p).
  { unfold R. rewrite iter_pos_nat, shr_iter_m by (now rewrite shr_record_of_loc_m).
    now rewrite shr_record_of_loc_m, positive_nat_Z. }
  unfold ceil_rec. destruct (clean R) eqn:C; rewrite HR.
  - apply Z.div_le_upper_bound; lia.
  - assert (Hlt : m < 2 ^ Zpos p * K).
    { destruct (Z.eq_dec m (2 ^ Zpos p * K)) as [Heq|]; [|lia].
      exfalso.
      assert (l = loc_Exact) by (destruct l; simpl in Hc; [reflexivity | lia]).
      subst l. unfold R in C.
      rewrite iter_pos_nat, shr_iter_clean in C; try discriminate.
      - simpl. lia.
      - reflexivity.
      - cbn [shr_record_of_loc shr_m]. rewrite positive_nat_Z, Heq.
        rewrite Z.mul_comm. apply Z.mod_mul. lia. }
    apply Z.div_lt_upper_bound in Hlt; lia.
Qed.

(** Rounding a value that does not exceed [mB * 2^eB] does not exceed it
    either, and so does not overflow. *)
Lemma round_aux_bound (mx ex : Z) (lx : location) :
  0 <= mx -> ex <= eB -> ceil_loc mx lx <= Zpos mB * 2 ^ (eB - ex) ->
  match binary_round_aux prec emax false mx ex lx with
  | S754_zero false => True
  | S754_finite false m e => e <= eB /\ Zpos m <= Zpos mB * 2 ^ (eB - e)
  | _ => False
  end.
Proof.
  intros Hm He Hc. unfold binary_round_aux.
  pose proof (shr_fexp_bound mx ex lx Hm He Hc) as [E1le C1].
  pose proof (shr_fexp_nonneg mx ex lx Hm) as N1.
  destruct (shr_fexp prec emax mx ex lx) as [r1 e1]. cbn [fst snd] in *.
  pose proof (round_nearest_even_bounds r1) as [B1 B1'].
  set (m2 := round_nearest_even (shr_m r1) (loc_of_shr_record r1)) in *.
  pose proof (shr_fexp_bound m2 e1 loc_Exact ltac:(lia) E1le
                ltac:(cbn [ceil_loc]; lia)) as [E2le C2].
  pose proof (shr_fexp_nonneg m2 e1 loc_Exact ltac:(lia)) as N2.
  destruct (shr_fexp prec emax m2 e1 loc_Exact) as [r2 e2]. cbn [fst snd] in *.
  assert (shr_m r2 <= ceil_rec r2) by (unfold ceil_rec; destruct (clean r2); lia).
  destruct (shr_m r2) as [|p|p] eqn:Em; try lia; try exact I.
  replace (e2 <=? emax - prec) with true by (symmetry; apply Z.leb_le; lia).
  split; lia.
Qed.

End Bound.

(** *** The two operations of the PER formula *)

Lemma nonneg_fleb (f : spec_float) :
  nonneg f = true -> fleb (S754_zero false) f = true.
Proof.
  destruct f as [s|[]| |[] m e]; try discriminate; intros _; try reflexivity.
  unfold fleb. rewrite (fcompare_scaled _ _ e); try reflexivity; cbn [fexpo]; try lia.
  cbn [scaled cond_Zopp]. rewrite Z.sub_diag. reflexivity.
Qed.

Lemma new_location_ceil (n q r : Z) :
  ceil_loc q (new_location n r) = if r =? 0 then q else q + 1.
Proof.
  unfold new_location, new_location_even, new_location_odd.
  destruct (Z.even n), (r =? 0); reflexivity.
Qed.

(** The quotient and remainder computed by the division, for positive
    integer operands. *)
Lemma div_core_spec (c n : positive) :
  exists q r e,
    SFdiv_core_binary prec emax (Zpos c) 0 (Zpos n) 0 = (q, e, new_location (Zpos n) r) /\
    e <= 0 /\ Zpos c * 2 ^ (- e) = Zpos n * q + r /\ 0 <= r < Zpos n /\ 0 <= q /\
    e <= fexp prec emax (Zpos (digits2_pos c) - Zpos (digits2_pos n)).
Proof.
  unfold SFdiv_core_binary. cbn [Zdigits2].
  set (e := Z.min (fexp prec emax (Zpos (digits2_pos c) + 0 - (Zpos (digits2_pos n) + 0))) (0 - 0)).
  assert (He : e <= 0) by (unfold e; lia).
  assert (He' : e <= fexp prec emax (Zpos (digits2_pos c) - Zpos (digits2_pos n))).
  { unfold e. rewrite !Z.add_0_r. lia. }
  set (m' := match 0 - 0 - e with
             | Z0 => Zpos c
             | Zpos _ => Z.shiftl (Zpos c) (0 - 0 - e)
             | Zneg _ => 0
             end).
  assert (Hm : m' = Zpos c * 2 ^ (- e)).
  { unfold m'. destruct (0 - 0 - e) as [|p|p] eqn:Es; try lia.
    - replace (- e) with 0 by lia. lia.
    - rewrite Z.shiftl_mul_pow2 by lia. do 2 f_equal. lia. }
  pose proof (Z_div_mod m' (Zpos n) ltac:(lia)) as D.
  destruct (Z.div_eucl m' (Zpos n)) as [q r]. destruct D as [D1 D2].
  exists q, r, e. repeat split; try lia.
  assert (0 <= m') by (rewrite Hm; apply Z.mul_nonneg_nonneg; [lia | apply Z.pow_nonneg; lia]).
  nia.
Qed.

(** A quotient of integers, the divisor not zero, carries the sign of its
    operands and is no NaN. *)
Lemma div_sign (sc sn : bool) (c n : positive) :
  match SFdiv prec emax (S754_finite sc c 0) (S754_finite sn n 0) with
  | S754_zero s | S754_finite s _ _ | S754_infinity s => s = xorb sc sn
  | S754_nan => False
  end.
Proof.
  cbn [SFdiv].
  destruct (div_core_spec c n) as (q & r & e & -> & _ & _ & _ & Hq & _).
  apply round_aux_sign. exact Hq.
Qed.

(** The quotient of two positive integers, the first not above the second,
    is at most one. *)
Lemma div_le_one (c n : positive) :
  (c <= n)%positive ->
  match SFdiv prec emax (exactZ (Zpos c)) (exactZ (Zpos n)) with
  | S754_zero false => True
  | S754_finite false m e => e <= -52 /\ Zpos m <= 2 ^ (- e)
  | _ => False
  end.
Proof.
  intros Hcn. cbn [exactZ SFdiv].
  destruct (div_core_spec c n) as (q & r & e & -> & He & Hd & Hr & Hq & Hf).
  cbn [xorb].
  assert (Hdig : Zpos (digits2_pos c) <= Zpos (digits2_pos n)).
  { pose proof (digits_le c n 0 ltac:(lia) ltac:(lia)). lia. }
  rewrite fexp_eq in Hf.
  assert (P : 0 < 2 ^ (- e)) by (apply Z.pow_pos_nonneg; lia).
  pose proof (round_aux_bound 4503599627370496 (-52) eq_refl ltac:(cbv; discriminate)
                q e (new_location (Zpos n) r) Hq ltac:(lia)) as B.
  rewrite new_location_ceil in B.
  assert (Hc : (if r =? 0 then q else q + 1) <= 4503599627370496 * 2 ^ (-52 - e)).
  { change 4503599627370496 with (2 ^ 52). rewrite <- Z.pow_add_r by lia.
    replace (52 + (-52 - e)) with (- e) by lia.
    destruct (Z.eqb_spec r 0); nia. }
  specialize (B Hc).
  destruct (binary_round_aux _ _ _ _ _ _) as [[]|[]| |[] m e']; try tauto.
  destruct B as [B1 B2]. split; [assumption|].
  change 4503599627370496 with (2 ^ 52) in B2. rewrite <- Z.pow_add_r in B2 by lia.
  replace (52 + (-52 - e')) with (- e') in B2 by lia. exact B2.
Qed.

Lemma roundZ_100 : roundZ 100 = hundred.
Proof. reflexivity. Qed.

(** A float that is at most one, times one hundred, is at most one
    hundred. *)
Lemma mul_100_le (m : positive) (e : Z) :
  e <= -52 -> Zpos m <= 2 ^ (- e) ->
  match SFmul prec emax (S754_finite false m e) hundred with
  | S754_zero false => True
  | S754_finite false m' e' => e' <= -46 /\ Zpos m' <= 7036874417766400 * 2 ^ (-46 - e')
  | _ => False
  end.
Proof.
  intros He Hm. unfold hundred. cbn [SFmul xorb].
  apply (round_aux_bound 7036874417766400 (-46) eq_refl ltac:(cbv; discriminate));
    try lia.
  cbn [ceil_loc]. rewrite Pos2Z.inj_mul.
  replace (-46 - (e + -46)) with (- e) by lia.
  assert (0 < 2 ^ (- e)) by (apply Z.pow_pos_nonneg; lia). nia.
Qed.

(** Multiplying by one hundred keeps the sign and makes no NaN. *)
Lemma mul_100_sign (f : spec_float) :
  notnan f = true ->
  notnan (SFmul prec emax f hundred) = true /\
  (nonneg f = true -> nonneg (SFmul prec emax f hundred) = true).
Proof.
  destruct f as [s|s| |s m e]; try discriminate; intros _.
  - split; [reflexivity | intros _; reflexivity].
  - split; [reflexivity | destruct s; intros H; [discriminate | reflexivity]].
  - unfold hundred. cbn [SFmul].
    pose proof (round_aux_sign (xorb s false) (Zpos (m * 7036874417766400))
                  (e + -46) loc_Exact ltac:(lia)) as S.
    destruct (binary_round_aux _ _ _ _ _ _) as [s'|s'| |s' m' e']; try tauto;
      (split; [reflexivity|]); subst s'; destruct s; cbn; congruence.
Qed.

End FloatFacts.

(** ** The PER formula on counts *)

Module PerFacts.
Import Py FloatFacts.

Lemma mul_100 (f : spec_float) :
  mul (PFloat f) (PInt 100) = Ok (PFloat (SFmul prec emax f hundred)).
Proof. reflexivity. Qed.

(** Without a count there is no PER: dividing [None] raises. *)
Lemma per_none (n : Z) : per PNone n = Raise TypeError.
Proof. reflexivity. Qed.

Lemma per_zero_div (c : Z) : per (PInt c) 0 = Raise ZeroDivisionError.
Proof. reflexivity. Qed.

Lemma per_int_eq (c n : Z) :
  n <> 0 ->
  per (PInt c) n =
    let q := SFdiv prec emax (exactZ c) (exactZ n) in
    if is_inf q then Raise OverflowError
    else Ok (PFloat (SFmul prec emax q hundred)).
Proof.
  intros Hn. unfold per, truediv.
  destruct (Z.eqb_spec n 0) as [|_]; [contradiction|].
  cbv zeta. destruct (is_inf _); [reflexivity|].
  cbn [rbind]. apply mul_100.
Qed.

Lemma div_count_sign (c : N) (n : Z) :
  n <> 0 ->
  notnan (SFdiv prec emax (exactZ (Z.of_N c)) (exactZ n)) = true /\
  (0 < n -> nonneg (SFdiv prec emax (exactZ (Z.of_N c)) (exactZ n)) = true).
Proof.
  intros Hn. destruct c as [|c], n as [|n|n]; try contradiction; cbn [Z.of_N exactZ].
  - split; reflexivity.
  - split; [reflexivity | lia].
  - pose proof (div_sign false false c n) as S.
    destruct (SFdiv _ _ _ _) as [s|s| |s m e]; try contradiction; subst;
      split; reflexivity.
  - pose proof (div_sign false true c n) as S.
    destruct (SFdiv _ _ _ _) as [s|s| |s m e]; try contradiction; subst;
      (split; [reflexivity | lia]).
Qed.

(** The PER of a count is a float and no NaN, unless the division
    overflows; for a positive packet number it is not negative. *)
Lemma per_count (c : N) (n : Z) :
  n <> 0 ->
  per (PInt (Z.of_N c)) n = Raise OverflowError \/
  exists f, per (PInt (Z.of_N c)) n = Ok (PFloat f) /\ notnan f = true /\
            (0 < n -> nonneg f = true).
Proof.
  intros Hn. rewrite per_int_eq by assumption. cbv zeta.
  destruct (div_count_sign c n Hn) as [Nq Pq].
  destruct (is_inf _); [left; reflexivity | right].
  eexists; split; [reflexivity|].
  destruct (mul_100_sign _ Nq) as [N P]. split; [exact N | auto].
Qed.

Lemma fleb_100 (f : spec_float) :
  match f with
  | S754_zero false => True
  | S754_finite false m e => e <= -46 /\ Zpos m <= 7036874417766400 * 2 ^ (-46 - e)
  | _ => False
  end ->
  fleb f (exactZ 100) = true.
Proof.
  destruct f as [[]|s| |[] m e]; try contradiction; [reflexivity|].
  intros [He Hm]. unfold fleb.
  rewrite (fcompare_scaled _ _ e); try reflexivity; cbn [fexpo exactZ]; try lia.
  cbn [scaled cond_Zopp]. rewrite Z.sub_diag, Z.mul_1_r.
  replace (100 * 2 ^ (0 - e)) with (7036874417766400 * 2 ^ (-46 - e)).
  - destruct (Z.compare_spec (Zpos m) (7036874417766400 * 2 ^ (-46 - e))); try reflexivity; lia.
  - change 7036874417766400 with (100 * 2 ^ 46).
    rewrite <- Z.mul_assoc, <- Z.pow_add_r by lia. do 2 f_equal. lia.
Qed.

(** When no more packets are counted than were requested, the PER lies
    between 0 and 100. *)
Lemma per_in_range (c : N) (n : Z) :
  0 < n -> Z.of_N c <= n ->
  exists f, per (PInt (Z.of_N c)) n = Ok (PFloat f) /\
            fleb (S754_zero false) f = true /\ fleb f (exactZ 100) = true.
Proof.
  intros Hn Hc. rewrite per_int_eq by lia. cbv zeta.
  destruct c as [|c], n as [|n|n]; try lia; cbn [Z.of_N exactZ].
  - eexists; split; [reflexivity|]. split; reflexivity.
  - pose proof (div_le_one c n ltac:(lia)) as D. cbn [exactZ] in D.
    destruct (SFdiv _ _ _ _) as [[]|s| |[] m e]; try contradiction; cbn [is_inf].
    + eexists; split; [reflexivity|]. split; reflexivity.
    + destruct D as [He Hm].
      pose proof (mul_100_le m e He Hm) as B.
      eexists; split; [reflexivity|]. split.
      * apply nonneg_fleb.
        apply (proj2 (mul_100_sign (S754_finite false m e) eq_refl)). reflexivity.
      * apply fleb_100. exact B.
Qed.

(** Whatever is divided, a PER that is computed at all is a float. *)
Lemma per_is_float (c : value) (n : Z) (v : value) :
  per c n = Ok v -> exists f, v = PFloat f.
Proof.
  unfold per. intros H.
  assert (D : forall q, truediv c (PInt n) = Ok q -> exists f, q = PFloat f).
  { intros q. destruct c as [|z|f|s]; cbn; try discriminate.
    - destruct (n =? 0); [discriminate|]. destruct (is_inf _); [discriminate|].
      intros [= <-]. eauto.
    - destruct (is_inf (roundZ n)); cbn; [discriminate|].
      destruct (is_fzero _); [discriminate|]. intros [= <-]. eauto. }
  destruct (truediv c (PInt n)) as [q|e]; [|discriminate].
  destruct (D q eq_refl) as [f ->]. cbn [rbind] in H.
  rewrite mul_100 in H. injection H as <-. eauto.
Qed.

Lemma gt_num (a b : value) :
  is_num a = true -> is_num b = true -> exists g, gt a b = Ok g.
Proof.
  destruct a, b; try discriminate; intros _ _; cbn; eauto.
Qed.

Lemma bump_num (mx v : value) :
  is_num mx = true -> is_num v = true -> is_num (bump mx v) = true.
Proof.
  intros Hm Hv. unfold bump. destruct (gt v mx) as [[]|]; assumption.
Qed.

End PerFacts.

(** ** One measurement *)

Module TrialFacts.
Import Py FloatFacts PerFacts.

Section Attempt.

Variable hw : bench.
Variable args : arguments.

Lemma per_of_eq (c : value) (numPkt : string) (s : state) :
  per_of c numPkt s = lift (rbind (int (PStr numPkt)) (per c)) s.
Proof.
  unfold per_of, lift, bind, per.
  destruct (int (PStr numPkt)) as [n|e]; cbn [rbind]; [|reflexivity].
  destruct (truediv c (PInt n)) as [q|e]; cbn [rbind]; [|reflexivity].
  destruct (mul q (PInt 100)); reflexivity.
Qed.

Ltac monad_unfold :=
  cbv beta iota delta [bind ret lift get modify send write set_per_100 set_perMax
    set_perMaster set_perSlave read when sleep end_test
    log written per_100 perMax perMaster perSlave].

(** The last steps of a measurement (lines 199-211) once both PER values
    are floats. *)
Lemma attempt_done (t : tuple) (atten : value) (s : state) (d n : Z)
    (cs cm : N) (ps pm : value) :
  int (delay args) = Ok d -> 0 <= d ->
  int (PStr (numPkt_of t)) = Ok n ->
  endTestFunc hw (history_slave (rf_switch hw) t atten d (log s)) Slave = Some cs ->
  endTestFunc hw (history_master (rf_switch hw) t atten d (log s)) Master = Some cm ->
  per (PInt (Z.of_N cs)) n = Ok ps ->
  per (PInt (Z.of_N cm)) n = Ok pm ->
  is_num (perMax s) = true ->
  attempt hw args t atten s =
    (Done Break,
     {| log := EndTest Master :: history_master (rf_switch hw) t atten d (log s);
        written := written s;
        per_100 := per_100 s;
        perMax := bump (bump (perMax s) pm) ps;
        perMaster := Some pm;
        perSlave := Some ps |}).
Proof.
  intros Hd Hd0 Hn Hcs Hcm Hps Hpm Hmx.
  destruct t as [[[[packetLen numPkt] phy] txPower] chan]. cbn [numPkt_of] in Hn.
  destruct s as [lg wr p mx vm vs].
  unfold history_master, history_slave, setup_cmds, swap_cmds in *.
  cbn [log perMax written per_100 app] in *.
  apply Z.ltb_ge in Hd0.
  destruct (per_is_float _ _ _ Hps) as [fs ->].
  destruct (per_is_float _ _ _ Hpm) as [fm ->].
  destruct (gt_num (PFloat fm) mx eq_refl Hmx) as [g1 Hg1].
  assert (Hmx' : is_num (bump mx (PFloat fm)) = true) by (now apply bump_num).
  destruct (gt_num (PFloat fs) _ eq_refl Hmx') as [g2 Hg2].
  unfold attempt. monad_unfold.
  destruct (rf_switch hw); cbn [app] in *;
    rewrite ?Hd, ?Hd0; cbv beta iota;
    rewrite Hcs, per_of_eq, Hn; cbn [rbind]; rewrite Hps; cbv beta iota delta [lift];
    rewrite Hcm, per_of_eq, Hn; cbn [rbind]; rewrite Hpm; cbv beta iota delta [lift];
    cbn [is_none orb]; rewrite Hg1;
    unfold bump in *; rewrite Hg1 in *;
    destruct g1; cbv beta iota; rewrite Hg2; destruct g2; reflexivity.
Qed.

Ltac dies :=
  right; unfold attempt; monad_unfold;
  unfold history_master, history_slave, setup_cmds, swap_cmds in *;
  destruct (rf_switch hw); cbn [app] in *;
  repeat first
    [ rewrite per_of_eq; cbv beta iota delta [lift]
    | rewrite per_none; cbv beta iota
    | match goal with
      | H : _ = _ |- _ => rewrite H; cbn [rbind]; cbv beta iota
      end ];
  eexists _, _; (split; [reflexivity | repeat split]).

(** A measurement either obtains its two PER values or dies of an
    exception; it never asks for a retry. *)
Lemma attempt_cases (t : tuple) (atten : value) (s : state) :
  (exists d n cs cm ps pm,
      int (delay args) = Ok d /\ 0 <= d /\
      int (PStr (numPkt_of t)) = Ok n /\
      endTestFunc hw (history_slave (rf_switch hw) t atten d (log s)) Slave = Some cs /\
      endTestFunc hw (history_master (rf_switch hw) t atten d (log s)) Master = Some cm /\
      per (PInt (Z.of_N cs)) n = Ok ps /\
      per (PInt (Z.of_N cm)) n = Ok pm) \/
  (exists e s', attempt hw args t atten s = (Uncaught e, s') /\ died s s').
Proof.
  destruct (int (delay args)) as [d|e] eqn:Hd.
  2: { destruct t as [[[[packetLen numPkt] phy] txPower] chan], s; unfold died; dies. }
  destruct (d <? 0) eqn:Hd0.
  1: { destruct t as [[[[packetLen numPkt] phy] txPower] chan], s; unfold died; dies. }
  destruct (int (PStr (numPkt_of t))) as [n|e] eqn:Hn.
  2: { destruct t as [[[[packetLen numPkt] phy] txPower] chan], s; unfold died;
       cbn [numPkt_of] in *; dies. }
  destruct (endTestFunc hw (history_slave (rf_switch hw) t atten d (log s)) Slave)
    as [cs|] eqn:Hcs.
  2: { destruct t as [[[[packetLen numPkt] phy] txPower] chan], s; unfold died;
       cbn [numPkt_of log] in *; dies. }
  destruct (per (PInt (Z.of_N cs)) n) as [ps|e] eqn:Hps.
  2: { destruct t as [[[[packetLen numPkt] phy] txPower] chan], s; unfold died;
       cbn [numPkt_of log] in *; dies. }
  destruct (endTestFunc hw (history_master (rf_switch hw) t atten d (log s)) Master)
    as [cm|] eqn:Hcm.
  2: { destruct t as [[[[packetLen numPkt] phy] txPower] chan], s; unfold died;
       cbn [numPkt_of log] in *; dies. }
  destruct (per (PInt (Z.of_N cm)) n) as [pm|e] eqn:Hpm.
  2: { destruct t as [[[[packetLen numPkt] phy] txPower] chan], s; unfold died;
       cbn [numPkt_of log] in *; dies. }
  left. exists d, n, cs, cm, ps, pm.
  apply Z.ltb_ge in Hd0. repeat split; assumption.
Qed.

Ltac run_attempt :=
  unfold attempt; monad_unfold;
  unfold history_master, history_slave, setup_cmds, swap_cmds in *;
  destruct (rf_switch hw); cbn [app tl] in *;
  repeat first
    [ rewrite per_of_eq; cbv beta iota delta [lift]
    | rewrite per_none; cbv beta iota
    | match goal with
      | H : _ = _ |- _ => rewrite H; cbn [rbind]; cbv beta iota
      end ];
  reflexivity.

(** A delay that is no number stops the measurement at its first wait,
    the devices already set up for the test. *)
Lemma attempt_bad_delay (t : tuple) (atten : value) (s : state) (e : exn) :
  int (delay args) = Raise e ->
  attempt hw args t atten s =
    (Uncaught e,
     {| log := tl (setup_cmds (rf_switch hw) t atten 0) ++ log s;
        written := written s; per_100 := per_100 s; perMax := perMax s;
        perMaster := perMaster s; perSlave := perSlave s |}).
Proof.
  intros Hd. destruct t as [[[[packetLen numPkt] phy] txPower] chan], s.
  cbn [log written per_100 perMax perMaster perSlave]. run_attempt.
Qed.

(** Without the slave's count the division on line 175 raises. *)
Lemma attempt_slave_silent (t : tuple) (atten : value) (s : state) (d n : Z) :
  int (delay args) = Ok d -> 0 <= d ->
  int (PStr (numPkt_of t)) = Ok n ->
  endTestFunc hw (history_slave (rf_switch hw) t atten d (log s)) Slave = None ->
  attempt hw args t atten s =
    (Uncaught TypeError,
     {| log := EndTest Slave :: history_slave (rf_switch hw) t atten d (log s);
        written := written s; per_100 := per_100 s; perMax := perMax s;
        perMaster := perMaster s; perSlave := perSlave s |}).
Proof.
  intros Hd Hd0 Hn Hcs. apply Z.ltb_ge in Hd0.
  destruct t as [[[[packetLen numPkt] phy] txPower] chan], s.
  cbn [log written per_100 perMax perMaster perSlave numPkt_of] in *. run_attempt.
Qed.

(** Without the master's count the division on line 193 raises. *)
Lemma attempt_master_silent (t : tuple) (atten : value) (s : state) (d n : Z)
    (cs : N) (ps : value) :
  int (delay args) = Ok d -> 0 <= d ->
  int (PStr (numPkt_of t)) = Ok n ->
  endTestFunc hw (history_slave (rf_switch hw) t atten d (log s)) Slave = Some cs ->
  per (PInt (Z.of_N cs)) n = Ok ps ->
  endTestFunc hw (history_master (rf_switch hw) t atten d (log s)) Master = None ->
  attempt hw args t atten s =
    (Uncaught TypeError,
     {| log := EndTest Master :: history_master (rf_switch hw) t atten d (log s);
        written := written s; per_100 := per_100 s; perMax := perMax s;
        perMaster := perMaster s; perSlave := Some ps |}).
Proof.
  intros Hd Hd0 Hn Hcs Hps Hcm. apply Z.ltb_ge in Hd0.
  destruct t as [[[[packetLen numPkt] phy] txPower] chan], s.
  cbn [log written per_100 perMax perMaster perSlave numPkt_of] in *. run_attempt.
Qed.

(** *** One attenuation level *)

Lemma while_retry_exhausted (fuel : nat) (body : M ctl) (s : state) :
  RETRY <= per_100 s -> while_retry fuel body s = (Done tt, s).
Proof.
  intros H. apply Z.ltb_ge in H.
  destruct fuel; cbn [while_retry]; unfold bind, get; rewrite H; reflexivity.
Qed.

Lemma while_retry_break (fuel : nat) (body : M ctl) (s s' : state) :
  per_100 s < RETRY -> body s = (Done Break, s') ->
  while_retry (S fuel) body s = (Done tt, s').
Proof.
  intros H B. apply Z.ltb_lt in H.
  cbn [while_retry]. unfold bind, get. rewrite H, B. reflexivity.
Qed.

Lemma while_retry_dies (fuel : nat) (body : M ctl) (s s' : state) (e : exn) :
  per_100 s < RETRY -> body s = (Uncaught e, s') ->
  while_retry (S fuel) body s = (Uncaught e, s').
Proof.
  intros H B. apply Z.ltb_lt in H.
  cbn [while_retry]. unfold bind, get. rewrite H, B. reflexivity.
Qed.

Lemma fuel_pos (s : state) :
  per_100 s < RETRY -> exists f, Z.to_nat (RETRY - per_100 s) = S f.
Proof.
  intros H. destruct (Z.to_nat (RETRY - per_100 s)) eqn:E; [lia | eauto].
Qed.

(** With the budget used up no command is sent: the level gets the forced
    row. *)
Lemma trial_give_up (t : tuple) (atten : value) (s : state) :
  RETRY <= per_100 s ->
  trial hw args t atten s = (Done tt, gave_up t atten s).
Proof.
  intros H. destruct t as [[[[packetLen numPkt] phy] txPower] chan].
  unfold trial, gave_up, row_of.
  unfold bind at 1. unfold get at 1.
  unfold bind at 1. rewrite while_retry_exhausted by assumption.
  apply Z.leb_le in H. destruct s as [lg wr p mx vm vs]. cbn [per_100] in H.
  monad_unfold. rewrite H. reflexivity.
Qed.

(** With budget left, a measurement that obtains both PER values is
    recorded as it is. *)
Lemma trial_measured (t : tuple) (atten : value) (s : state) (d n : Z)
    (cs cm : N) (ps pm : value) :
  per_100 s < RETRY ->
  int (delay args) = Ok d -> 0 <= d ->
  int (PStr (numPkt_of t)) = Ok n ->
  endTestFunc hw (history_slave (rf_switch hw) t atten d (log s)) Slave = Some cs ->
  endTestFunc hw (history_master (rf_switch hw) t atten d (log s)) Master = Some cm ->
  per (PInt (Z.of_N cs)) n = Ok ps ->
  per (PInt (Z.of_N cm)) n = Ok pm ->
  is_num (perMax s) = true ->
  trial hw args t atten s =
    (Done tt,
     measured t atten pm ps
       (EndTest Master :: history_master (rf_switch hw) t atten d (log s)) s).
Proof.
  intros H Hd Hd0 Hn Hcs Hcm Hps Hpm Hmx.
  pose proof (attempt_done t atten s d n cs cm ps pm Hd Hd0 Hn Hcs Hcm Hps Hpm Hmx) as A.
  destruct (fuel_pos s H) as [f F].
  destruct t as [[[[packetLen numPkt] phy] txPower] chan].
  unfold trial, measured, row_of.
  unfold bind at 1. unfold get at 1.
  unfold bind at 1. rewrite F, (while_retry_break f _ s _ H A).
  assert (L : (RETRY <=? per_100 s) = false) by (apply Z.leb_gt; assumption).
  destruct s as [lg wr p mx vm vs]. cbn [per_100] in L.
  monad_unfold. rewrite L. reflexivity.
Qed.

(** With budget left, an exception in the measurement ends the level, and
    with it the process. *)
Lemma trial_dies (t : tuple) (atten : value) (s s' : state) (e : exn) :
  per_100 s < RETRY ->
  attempt hw args t atten s = (Uncaught e, s') ->
  trial hw args t atten s = (Uncaught e, s').
Proof.
  intros H A. destruct (fuel_pos s H) as [f F].
  destruct t as [[[[packetLen numPkt] phy] txPower] chan].
  unfold trial.
  unfold bind at 1. unfold get at 1.
  unfold bind at 1. rewrite F, (while_retry_dies f _ s _ e H A). reflexivity.
Qed.

(** The three ways a level can go. *)
Lemma trial_cases (t : tuple) (atten : value) (s : state) :
  is_num (perMax s) = true ->
  (RETRY <= per_100 s /\ trial hw args t atten s = (Done tt, gave_up t atten s)) \/
  (per_100 s < RETRY /\
   exists d n cs cm ps pm,
     obtains hw args t atten s d n cs cm /\
     per (PInt (Z.of_N cs)) n = Ok ps /\ per (PInt (Z.of_N cm)) n = Ok pm /\
     trial hw args t atten s =
       (Done tt,
        measured t atten pm ps
          (EndTest Master :: history_master (rf_switch hw) t atten d (log s)) s)) \/
  (per_100 s < RETRY /\
   exists e s', trial hw args t atten s = (Uncaught e, s') /\ died s s').
Proof.
  intros Hmx. destruct (Z.le_gt_cases RETRY (per_100 s)) as [H|H].
  - left. split; [assumption | now apply trial_give_up].
  - right. destruct (attempt_cases t atten s)
      as [(d & n & cs & cm & ps & pm & Hd & Hd0 & Hn & Hcs & Hcm & Hps & Hpm)
         |(e & s' & A & D)].
    + left. split; [assumption|]. exists d, n, cs, cm, ps, pm.
      split; [|split; [assumption | split; [assumption|]]].
      * unfold obtains. auto.
      * now apply (trial_measured t atten s d n cs cm).
    + right. split; [assumption|]. exists e, s'. split; [|assumption].
      now apply trial_dies.
Qed.

End Attempt.
End TrialFacts.

(** ** The sweep *)

Module SweepFacts.
Import Py FloatFacts PerFacts TrialFacts.

(** *** Order on values *)

Lemma real_num (v : value) : real v = true -> is_num v = true.
Proof. destruct v; try discriminate; reflexivity. Qed.

Lemma real_exact (v : value) :
  real v = true -> exists x, num_exact v = Some x /\ notnan x = true.
Proof.
  unfold real. destruct (num_exact v) as [[]|]; try discriminate; eauto.
Qed.

Lemma vleb_real (a b : value) : vleb a b = true -> real a = true /\ real b = true.
Proof.
  unfold vleb, real.
  destruct (num_exact a) as [x|], (num_exact b) as [y|]; try discriminate.
  intros H. apply fleb_notnan in H. destruct x, y, H; try discriminate; auto.
Qed.

Lemma vleb_refl (v : value) : real v = true -> vleb v v = true.
Proof.
  intros H. destruct (real_exact v H) as (x & E & N).
  unfold vleb. rewrite E. now apply fleb_refl.
Qed.

Lemma vleb_trans (a b c : value) :
  vleb a b = true -> vleb b c = true -> vleb a c = true.
Proof.
  unfold vleb.
  destruct (num_exact a), (num_exact b), (num_exact c); try discriminate.
  apply fleb_trans.
Qed.

Lemma vleb_antisym (a b : value) :
  vleb a b = true -> vleb b a = true -> veqb a b = true.
Proof.
  unfold vleb, veqb.
  destruct (num_exact a), (num_exact b); try discriminate.
  apply fleb_antisym.
Qed.


Lemma gt_exact (a b : value) (x y : spec_float) :
  num_exact a = Some x -> num_exact b = Some y -> gt a b = Ok (fltb y x).
Proof.
  destruct a, b; cbn; try discriminate; intros [= <-] [= <-]; reflexivity.
Qed.

(** The running maximum after a new value is the larger of the two. *)
Lemma bump_spec (mx v : value) :
  real mx = true -> real v = true ->
  (bump mx v = mx \/ bump mx v = v) /\
  vleb mx (bump mx v) = true /\ vleb v (bump mx v) = true.
Proof.
  intros Rm Rv.
  destruct (real_exact mx Rm) as (x & Ex & Nx), (real_exact v Rv) as (y & Ey & Ny).
  unfold bump. rewrite (gt_exact v mx y x Ey Ex).
  destruct (fltb x y) eqn:C.
  - split; [now right|]. split; [|now apply vleb_refl].
    unfold vleb. rewrite Ex, Ey. now apply fltb_fleb.
  - split; [now left|]. split; [now apply vleb_refl|].
    unfold vleb. rewrite Ex, Ey. now apply fltb_false_fleb.
Qed.

Lemma bump_real (mx v : value) :
  real mx = true -> real v = true -> real (bump mx v) = true.
Proof.
  intros Rm Rv. destruct (bump_spec mx v Rm Rv) as [[-> | ->] _]; assumption.
Qed.

(** *** The results file *)

Lemma rows_of_data (r : row) (w : list line) :
  rows_of (Data r :: w) = rows_of w ++ [r].
Proof. unfold rows_of. cbn [rev]. rewrite flat_map_app. cbn. reflexivity. Qed.

Lemma rows_of_blank (w : list line) : rows_of (Blank :: w) = rows_of w.
Proof.
  unfold rows_of. cbn [rev]. rewrite flat_map_app. cbn. apply app_nil_r.
Qed.

Lemma recorded_data (r : row) (w : list line) :
  recorded (Data r :: w) = recorded w ++ [r_perMaster r; r_perSlave r].
Proof.
  unfold recorded. rewrite rows_of_data, flat_map_app. cbn. reflexivity.
Qed.

Lemma recorded_blank (w : list line) : recorded (Blank :: w) = recorded w.
Proof. unfold recorded. now rewrite rows_of_blank. Qed.

Lemma key_row_of (t : tuple) (atten pm ps : value) :
  key (row_of t atten pm ps) = (t, atten).
Proof. destruct t as [[[[? ?] ?] ?] ?]. reflexivity. Qed.

Lemma row_of_per (t : tuple) (atten pm ps : value) :
  r_perMaster (row_of t atten pm ps) = pm /\ r_perSlave (row_of t atten pm ps) = ps.
Proof. destruct t as [[[[? ?] ?] ?] ?]. split; reflexivity. Qed.

(** *** Loops *)

Section ForEach.

Context {A : Type}.
Variable body : A -> M unit.
Variable Q : state -> Prop.
Variable R : state -> state -> Prop.
Variable owes : A -> list (tuple * value).
Hypothesis R_refl : forall s, Q s -> R s s.
Hypothesis R_trans : forall s1 s2 s3, R s1 s2 -> R s2 s3 -> R s1 s3.

Lemma for_each_progress (l : list A) :
  (forall a s, In a l -> Q s ->
     Q (snd (body a s)) /\ R s (snd (body a s)) /\
     progress (fst (body a s)) s (snd (body a s)) (owes a)) ->
  forall s, Q s ->
    Q (snd (for_each l body s)) /\ R s (snd (for_each l body s)) /\
    progress (fst (for_each l body s)) s (snd (for_each l body s))
      (flat_map owes l).
Proof.
  induction l as [|a l IH]; intros Hbody s Hs.
  - cbn. split; [assumption|]. split; [now apply R_refl|].
    exists []. split; [now rewrite app_nil_r | reflexivity].
  - cbn [for_each flat_map]. unfold bind.
    destruct (Hbody a s (or_introl eq_refl) Hs) as (Q1 & R1 & (done1 & W1 & P1)).
    destruct (body a s) as [[u|e|] s1]; cbn [fst snd] in *.
    + destruct (IH (fun a' s' Hin => Hbody a' s' (or_intror Hin)) s1 Q1)
        as (Q2 & R2 & (done2 & W2 & P2)).
      split; [assumption|]. split; [eapply R_trans; eassumption|].
      exists (done1 ++ done2). split.
      * now rewrite W2, W1, app_assoc.
      * rewrite map_app, P1.
        destruct (fst (for_each l body s1)); [now rewrite P2 | | assumption].
        destruct P2 as [rest ->]. exists rest. now rewrite app_assoc.
    + split; [assumption|]. split; [assumption|].
      exists done1. split; [assumption|].
      destruct P1 as [rest ->]. exists (rest ++ flat_map owes l).
      now rewrite app_assoc.
    + contradiction.
Qed.

Lemma for_each_rel (l : list A) :
  (forall a s, Q s -> Q (snd (body a s)) /\ R s (snd (body a s))) ->
  forall s, Q s -> Q (snd (for_each l body s)) /\ R s (snd (for_each l body s)).
Proof.
  intros Hbody. induction l as [|a l IH]; intros s Hs.
  - cbn. split; [assumption | now apply R_refl].
  - cbn [for_each]. unfold bind.
    destruct (Hbody a s Hs) as (Q1 & R1).
    destruct (body a s) as [[u|e|] s1]; cbn [fst snd] in *; try (split; assumption).
    destruct (IH s1 Q1) as (Q2 & R2).
    split; [assumption | eapply R_trans; eassumption].
Qed.

End ForEach.

(** *** One level, seen from the sweep *)

Lemma per_ok_real (c : N) (n : Z) (v : value) :
  per (PInt (Z.of_N c)) n = Ok v ->
  real v = true /\ (0 < n -> vleb (PInt 0) v = true).
Proof.
  intros H.
  assert (Hn : n <> 0).
  { intros ->. rewrite per_zero_div in H. discriminate. }
  destruct (per_count c n Hn) as [E | (f & E & N & P)]; rewrite E in H;
    [discriminate|]. injection H as <-. split.
  - unfold real. cbn. destruct f; try discriminate; reflexivity.
  - intros Hpos. unfold vleb. cbn. apply nonneg_fleb. auto.
Qed.

Section Step.

Variable hw : bench.
Variable args : arguments.

(** What a level does to the state, whichever way it goes. *)
Lemma trial_step (t : tuple) (atten : value) (s : state) :
  tracked s ->
  tracked (snd (trial hw args t atten s)) /\
  vleb (perMax s) (perMax (snd (trial hw args t atten s))) = true /\
  (positive_count (numPkt_of t) -> nonneg_rows s ->
   nonneg_rows (snd (trial hw args t atten s))) /\
  match fst (trial hw args t atten s) with
  | Done _ => exists pm ps,
      written (snd (trial hw args t atten s)) = Data (row_of t atten pm ps) :: written s
  | Uncaught _ => written (snd (trial hw args t atten s)) = written s
  | NoFuel => False
  end.
Proof.
  intros ((Rmx & H100) & Hub & Hat).
  destruct (trial_cases hw args t atten s (real_num _ Rmx))
    as [[Hp E] | [[Hp (d & n & cs & cm & ps & pm & Ho & Eps & Epm & E)]
                 | [Hp (e & s' & E & (Dw & Dp & Dm))]]];
    rewrite E; cbn [fst snd].
  - (* given up *)
    pose proof (row_of_per t atten (PInt 100) (PInt 100)) as [Rm Rs].
    assert (V : forall v, In v (recorded (written (gave_up t atten s))) ->
                In v (recorded (written s)) \/ v = PInt 100).
    { intros v. cbn [gave_up written]. rewrite recorded_data, in_app_iff, Rm, Rs.
      cbn. intuition. }
    refine (conj (conj (conj _ _) (conj _ _)) (conj _ (conj _ _))).
    + reflexivity.
    + intros _. reflexivity.
    + intros v Hv. destruct (V v Hv) as [Hin | ->]; [|reflexivity].
      cbn [gave_up perMax]. eapply vleb_trans; [now apply Hub | now apply H100].
    + right. exists (PInt 100). split; [|reflexivity].
      cbn [gave_up written]. rewrite recorded_data, in_app_iff, Rm. cbn. auto.
    + now apply H100.
    + intros _ Hnn v Hv. destruct (V v Hv) as [Hin | ->]; [now apply Hnn | reflexivity].
    + exists (PInt 100), (PInt 100). reflexivity.
  - (* measured *)
    destruct Ho as (Hd & Hd0 & Hn & Hcs & Hcm).
    destruct (per_ok_real _ _ _ Eps) as [Rps Pps].
    destruct (per_ok_real _ _ _ Epm) as [Rpm Ppm].
    destruct (bump_spec (perMax s) pm Rmx Rpm) as (C1 & L1 & L1').
    pose proof (bump_real _ _ Rmx Rpm) as R1.
    destruct (bump_spec (bump (perMax s) pm) ps R1 Rps) as (C2 & L2 & L2').
    pose proof (bump_real _ _ R1 Rps) as R2.
    pose proof (row_of_per t atten pm ps) as [Rm Rs].
    assert (V : forall v, In v (recorded (written (measured t atten pm ps
                  (EndTest Master :: history_master (rf_switch hw) t atten d (log s)) s))) ->
                In v (recorded (written s)) \/ v = pm \/ v = ps).
    { intros v. cbn [measured written]. rewrite recorded_data, in_app_iff, Rm, Rs.
      cbn. intuition. }
    assert (W : forall v, v = pm \/ v = ps ->
                In v (recorded (written (measured t atten pm ps
                  (EndTest Master :: history_master (rf_switch hw) t atten d (log s)) s)))).
    { intros v. cbn [measured written]. rewrite recorded_data, in_app_iff, Rm, Rs.
      cbn. intuition. }
    assert (O : forall v, In v (recorded (written s)) ->
                In v (recorded (written (measured t atten pm ps
                  (EndTest Master :: history_master (rf_switch hw) t atten d (log s)) s)))).
    { intros v. cbn [measured written]. rewrite recorded_data, in_app_iff. auto. }
    refine (conj (conj (conj _ _) (conj _ _)) (conj _ (conj _ _))).
    + exact R2.
    + cbn [measured per_100]. lia.
    + intros v Hv. cbn [measured perMax].
      destruct (V v Hv) as [Hin | [-> | ->]].
      * eapply vleb_trans; [now apply Hub|]. eapply vleb_trans; eassumption.
      * eapply vleb_trans; eassumption.
      * assumption.
    + cbn [perMax measured] in *.
      destruct C2 as [C2 | C2]; rewrite C2.
      * destruct C1 as [C1 | C1]; rewrite C1.
        -- destruct Hat as [Hz | (v & Hin & Hv)]; [now left|].
           right. exists v. split; [now apply O | assumption].
        -- right. exists pm. split; [apply W; auto | now apply vleb_antisym; apply vleb_refl].
      * right. exists ps. split; [apply W; auto | now apply vleb_antisym; apply vleb_refl].
    + cbn [measured perMax]. eapply vleb_trans; eassumption.
    + intros (n' & Hn' & Hpos) Hnn v Hv.
      assert (n' = n) by congruence. subst n'.
      destruct (V v Hv) as [Hin | [-> | ->]]; auto.
    + exists pm, ps. reflexivity.
  - (* died *)
    unfold tracked, sweep_inv, nonneg_rows. rewrite Dw, Dp, Dm.
    refine (conj (conj (conj _ _) (conj _ _)) (conj _ (conj _ _))); auto.
    now apply vleb_refl.
Qed.

Lemma grows_refl (pos : Prop) (s : state) :
  tracked s /\ (pos -> nonneg_rows s) -> grows s s.
Proof. intros [[[R _] _] _]. now apply vleb_refl. Qed.

Lemma grows_trans (s1 s2 s3 : state) : grows s1 s2 -> grows s2 s3 -> grows s1 s3.
Proof. apply vleb_trans. Qed.

Lemma trial_progress (pos : Prop) (t : tuple) (atten : value) (s : state) :
  (pos -> positive_count (numPkt_of t)) ->
  tracked s /\ (pos -> nonneg_rows s) ->
  (tracked (snd (trial hw args t atten s)) /\
   (pos -> nonneg_rows (snd (trial hw args t atten s)))) /\
  grows s (snd (trial hw args t atten s)) /\
  progress (fst (trial hw args t atten s)) s (snd (trial hw args t atten s))
    [(t, atten)].
Proof.
  intros Hpos [T N].
  destruct (trial_step t atten s T) as (T' & G & N' & W).
  split; [split; [assumption | auto]|]. split; [assumption|].
  unfold progress. destruct (fst (trial hw args t atten s)).
  - destruct W as (pm & ps & W). rewrite W.
    exists [row_of t atten pm ps]. split; [apply rows_of_data|].
    cbn. now rewrite key_row_of.
  - rewrite W. exists []. split; [now rewrite app_nil_r|]. now exists [(t, atten)].
  - contradiction.
Qed.

Lemma sweep_tuple_eq (levels : list value) (t : tuple) (s : state) :
  sweep_tuple hw args levels t s = for_each levels (trial hw args t) (fresh s).
Proof. reflexivity. Qed.

Lemma flat_map_single {X Y} (f : X -> Y) (l : list X) :
  flat_map (fun x => [f x]) l = map f l.
Proof. induction l; cbn; congruence. Qed.

Lemma sweep_tuple_progress (pos : Prop) (levels : list value) (t : tuple)
    (s : state) :
  (pos -> positive_count (numPkt_of t)) ->
  tracked s /\ (pos -> nonneg_rows s) ->
  (tracked (snd (sweep_tuple hw args levels t s)) /\
   (pos -> nonneg_rows (snd (sweep_tuple hw args levels t s)))) /\
  grows s (snd (sweep_tuple hw args levels t s)) /\
  progress (fst (sweep_tuple hw args levels t s)) s
    (snd (sweep_tuple hw args levels t s)) (map (fun a => (t, a)) levels).
Proof.
  intros Hpos [T N]. rewrite sweep_tuple_eq.
  assert (F : tracked (fresh s) /\ (pos -> nonneg_rows (fresh s))).
  { destruct T as ((R & _) & U & At). split; [|exact N].
    split; [split; [exact R | cbn; unfold RETRY; lia] | split; assumption]. }
  pose proof (for_each_progress (trial hw args t)
                (fun s => tracked s /\ (pos -> nonneg_rows s)) grows
                (fun a => [(t, a)]) (grows_refl pos) grows_trans levels
                (fun a s' _ H => trial_progress pos t a s' Hpos H) (fresh s) F) as P.
  rewrite flat_map_single in P. exact P.
Qed.

Lemma sweep_progress (pos : Prop) (ts : list tuple) (levels : list value)
    (s : state) :
  (forall t, In t ts -> pos -> positive_count (numPkt_of t)) ->
  tracked s /\ (pos -> nonneg_rows s) ->
  (tracked (snd (sweep hw args ts levels s)) /\
   (pos -> nonneg_rows (snd (sweep hw args ts levels s)))) /\
  grows s (snd (sweep hw args ts levels s)) /\
  progress (fst (sweep hw args ts levels s)) s
    (snd (sweep hw args ts levels s)) (schedule ts levels).
Proof.
  intros Hpos H. unfold sweep, schedule.
  apply (for_each_progress (sweep_tuple hw args levels)
           (fun s => tracked s /\ (pos -> nonneg_rows s)) grows
           (fun t => map (fun a => (t, a)) levels) (grows_refl pos) grows_trans);
    [|assumption].
  intros t s' Hin Hs'. apply sweep_tuple_progress; auto.
Qed.

(** A level entered under the sweep invariant keeps it and does not lower
    the running maximum. *)
Lemma trial_monotone (t : tuple) (atten : value) (s : state) :
  sweep_inv s ->
  sweep_inv (snd (trial hw args t atten s)) /\
  vleb (perMax s) (perMax (snd (trial hw args t atten s))) = true.
Proof.
  intros (Rmx & H100).
  destruct (trial_cases hw args t atten s (real_num _ Rmx))
    as [[Hp E] | [[Hp (d & n & cs & cm & ps & pm & Ho & Eps & Epm & E)]
                 | [Hp (e & s' & E & (Dw & Dp & Dm))]]];
    rewrite E; cbn [fst snd].
  - split; [split; [reflexivity | intros _; reflexivity] | now apply H100].
  - destruct (per_ok_real _ _ _ Eps) as [Rps _].
    destruct (per_ok_real _ _ _ Epm) as [Rpm _].
    destruct (bump_spec (perMax s) pm Rmx Rpm) as (_ & L1 & _).
    pose proof (bump_real _ _ Rmx Rpm) as R1.
    destruct (bump_spec (bump (perMax s) pm) ps R1 Rps) as (_ & L2 & _).
    split; [split|].
    + exact (bump_real _ _ R1 Rps).
    + cbn [measured per_100]. lia.
    + cbn [measured perMax]. eapply vleb_trans; eassumption.
  - unfold sweep_inv. rewrite Dp, Dm. split; [split; assumption | now apply vleb_refl].
Qed.


(** With the budget used up, every level of the list is given up. *)
Lemma levels_give_up (t : tuple) (levels : list value) (s : state) :
  RETRY <= per_100 s ->
  for_each levels (trial hw args t) s = (Done tt, gave_up_all t levels s).
Proof.
  revert s. induction levels as [|a levels IH]; intros s H; [reflexivity|].
  cbn [for_each]. unfold bind. rewrite trial_give_up by assumption.
  cbn [gave_up_all fold_left]. apply IH. exact H.
Qed.

Lemma gave_up_all_spec (t : tuple) (levels : list value) (s : state) :
  log (gave_up_all t levels s) = log s /\
  per_100 (gave_up_all t levels s) = per_100 s /\
  rows_of (written (gave_up_all t levels s))
  = rows_of (written s) ++ map (fun a => row_of t a (PInt 100) (PInt 100)) levels.
Proof.
  revert s. induction levels as [|a levels IH]; intros s.
  - cbn. now rewrite app_nil_r.
  - cbn [gave_up_all fold_left map].
    destruct (IH (gave_up t a s)) as (L & P & W).
    unfold gave_up_all in *. rewrite L, P, W. cbn [gave_up log per_100 written].
    rewrite rows_of_data, <- app_assoc. auto.
Qed.

End Step.

(** *** The whole run *)

Lemma run_eq (hw : bench) (args : arguments) :
  run hw args =
    match attenuations args with
    | Raise e => (Uncaught e, init)
    | Ok levels =>
        match sweep hw args (tuples args) levels (started args) with
        | (Done _, s) => exit_code args (closed s)
        | (Uncaught e, s) => (Uncaught e, s)
        | (NoFuel, s) => (NoFuel, s)
        end
    end.
Proof.
  unfold run, main, startup, shutdown.
  unfold bind at 1. unfold bind at 1. unfold lift at 1.
  destruct (attenuations args) as [levels|e]; [|reflexivity].
  cbv beta iota delta [bind send modify set_perMax ret init log written per_100
    perMax perMaster perSlave].
  fold (started args).
  destruct (sweep hw args (tuples args) levels (started args)) as [[u|e|] s];
    reflexivity.
Qed.

(** The limit check reads the state and leaves it as it is. *)
Lemma exit_code_state (args : arguments) (s s' : state) (o : outcome Z) :
  exit_code args s = (o, s') -> s' = s.
Proof.
  unfold exit_code, bind, lift, get, ret.
  destruct (float (limit args)) as [l|e]; [|now intros [= _ <-]].
  destruct (ne _ _); [|now intros [= _ <-]].
  destruct (gt _ _) as [[]|]; now intros [= _ <-].
Qed.

Lemma tracked_started (args : arguments) : tracked (started args).
Proof.
  split; [split; [reflexivity | intros _; reflexivity]|].
  split; [intros v []|]. left. reflexivity.
Qed.



End SweepFacts.

(** ** Parameter expansion *)

Module ParamFacts.
Import Py.

Lemma split_nonempty (sep : ascii) (s : string) : split sep s <> [].
Proof.
  destruct s as [|c r]; cbn; [discriminate|].
  destruct (Ascii.eqb c sep); [discriminate|].
  destruct (split sep r); discriminate.
Qed.

Lemma expand_nonempty (s : string) : expand s <> [].
Proof. apply split_nonempty. Qed.

(** *** [range] *)

Lemma range_positive_step (start stop step : Z) :
  0 < step -> start < stop ->
  exists k : nat,
    range start stop step = Ok (map (fun i => start + Z.of_nat i * step) (seq 0 k)) /\
    forall i : nat, (i < k)%nat <-> start + Z.of_nat i * step < stop.
Proof.
  intros Hs Hlt. unfold range, range_len.
  destruct (Z.eqb_spec step 0) as [|_]; [lia|].
  destruct (Z.ltb_spec 0 step) as [_|]; [|lia].
  destruct (Z.ltb_spec start stop) as [_|]; [|lia].
  exists (Z.to_nat ((stop - start - 1) / step + 1)). split; [reflexivity|].
  intros i.
  assert (Hq : 0 <= (stop - start - 1) / step) by (apply Z.div_pos; lia).
  pose proof (Z.mul_div_le (stop - start - 1) step Hs) as Hle.
  split; intros H.
  - assert (Z.of_nat i <= (stop - start - 1) / step) by lia. nia.
  - assert (Z.of_nat i <= (stop - start - 1) / step).
    { apply Z.div_le_lower_bound; lia. }
    lia.
Qed.

(** *** [itertools.product] *)

Lemma nth_error_flat_map_block {A B} (g : A -> list B) (n : nat) (l : list A) :
  (forall a, In a l -> List.length (g a) = n) ->
  forall (i j : nat) (a : A),
    nth_error l i = Some a -> (j < n)%nat ->
    nth_error (flat_map g l) (i * n + j) = nth_error (g a) j.
Proof.
  induction l as [|b l IH]; intros Hlen i j a Hi Hj.
  - destruct i; discriminate.
  - cbn [flat_map]. destruct i as [|i]; cbn [nth_error] in Hi.
    + injection Hi as ->. cbn. apply nth_error_app1.
      rewrite (Hlen a (or_introl eq_refl)). exact Hj.
    + rewrite nth_error_app2; rewrite (Hlen b (or_introl eq_refl)); [|lia].
      replace (S i * n + j - n)%nat with (i * n + j)%nat by lia.
      apply IH; auto. intros x Hx. apply Hlen. now right.
Qed.

Lemma length_flat_map_block {A B} (g : A -> list B) (n : nat) (l : list A) :
  (forall a, In a l -> List.length (g a) = n) ->
  List.length (flat_map g l) = (List.length l * n)%nat.
Proof.
  induction l as [|b l IH]; intros Hlen; [reflexivity|].
  cbn [flat_map List.length]. rewrite length_app, (Hlen b (or_introl eq_refl)), IH.
  - lia.
  - intros x Hx. apply Hlen. now right.
Qed.

Lemma NoDup_map_inj {A B} (f : A -> B) (l : list A) :
  (forall x y, f x = f y -> x = y) -> NoDup l -> NoDup (map f l).
Proof.
  intros Hf. induction 1 as [|a l Hnotin Hl IH]; cbn [map]; constructor.
  - intros H. apply in_map_iff in H as (y & E & Hy). apply Hf in E. congruence.
  - exact IH.
Qed.

Lemma NoDup_flat_map {A B} (g : A -> list B) (l : list A) :
  NoDup l ->
  (forall a, In a l -> NoDup (g a)) ->
  (forall a a' x, In a l -> In a' l -> In x (g a) -> In x (g a') -> a = a') ->
  NoDup (flat_map g l).
Proof.
  induction l as [|b l IH]; intros Hl Hg Hdisj; cbn [flat_map]; [constructor|].
  inversion Hl as [|? ? Hnotin Hl']; subst.
  apply NoDup_app.
  - apply Hg. now left.
  - apply IH; [assumption | |].
    + intros a Ha. apply Hg. now right.
    + intros a a' x Ha Ha'. apply Hdisj; now right.
  - intros x Hx Hx'. apply in_flat_map in Hx' as (a & Ha & Hxa).
    assert (b = a) by (apply (Hdisj b a x); auto; [now left | now right]).
    subst. contradiction.
Qed.

Lemma digit_lt (i n j m : nat) :
  (i < n)%nat -> (j < m)%nat -> (i * m + j < n * m)%nat.
Proof. intros Hi Hj. nia. Qed.

Section Product.

Context {A B C D E : Type}.
Variables (la : list A) (lb : list B) (lc : list C) (ld : list D) (le : list E).

Lemma product5_length :
  List.length (product5 la lb lc ld le)
  = (List.length la * (List.length lb * (List.length lc * (List.length ld * List.length le))))%nat.
Proof.
  unfold product5.
  apply length_flat_map_block. intros a _.
  apply length_flat_map_block. intros b _.
  apply length_flat_map_block. intros c _.
  apply length_flat_map_block. intros d _.
  apply length_map.
Qed.

(** The combination of the [ia]-th, [ib]-th, ... elements sits at the
    position with these mixed-radix digits, [ia] the most significant. *)
Lemma product5_nth (ia ib ic id ie : nat) (a : A) (b : B) (c : C) (d : D) (e : E) :
  nth_error la ia = Some a -> nth_error lb ib = Some b ->
  nth_error lc ic = Some c -> nth_error ld id = Some d ->
  nth_error le ie = Some e ->
  nth_error (product5 la lb lc ld le)
    ((((ia * List.length lb + ib) * List.length lc + ic) * List.length ld + id) * List.length le + ie)
  = Some (a, b, c, d, e).
Proof.
  intros Ha Hb Hc Hd He.
  assert (Ia := proj1 (nth_error_Some la ia) ltac:(congruence)).
  assert (Ib := proj1 (nth_error_Some lb ib) ltac:(congruence)).
  assert (Ic := proj1 (nth_error_Some lc ic) ltac:(congruence)).
  assert (Id := proj1 (nth_error_Some ld id) ltac:(congruence)).
  assert (Ie := proj1 (nth_error_Some le ie) ltac:(congruence)).
  unfold product5.
  replace ((((ia * List.length lb + ib) * List.length lc + ic) * List.length ld + id) * List.length le + ie)%nat
    with (ia * (List.length lb * (List.length lc * (List.length ld * List.length le)))
          + (ib * (List.length lc * (List.length ld * List.length le))
             + (ic * (List.length ld * List.length le) + (id * List.length le + ie))))%nat by ring.
  assert (J1 : (id * List.length le + ie < List.length ld * List.length le)%nat)
    by (now apply digit_lt).
  assert (J2 : (ic * (List.length ld * List.length le) + (id * List.length le + ie)
                < List.length lc * (List.length ld * List.length le))%nat)
    by (now apply digit_lt).
  assert (J3 : (ib * (List.length lc * (List.length ld * List.length le))
                + (ic * (List.length ld * List.length le) + (id * List.length le + ie))
                < List.length lb * (List.length lc * (List.length ld * List.length le)))%nat)
    by (now apply digit_lt).
  rewrite (nth_error_flat_map_block _ (List.length lb * (List.length lc * (List.length ld * List.length le))) la) with (a := a);
    [| intros a' _; apply length_flat_map_block; intros b' _;
       apply length_flat_map_block; intros c' _;
       apply length_flat_map_block; intros d' _; apply length_map
     | assumption | exact J3].
  rewrite (nth_error_flat_map_block _ (List.length lc * (List.length ld * List.length le)) lb) with (a := b);
    [| intros b' _; apply length_flat_map_block; intros c' _;
       apply length_flat_map_block; intros d' _; apply length_map
     | assumption | exact J2].
  rewrite (nth_error_flat_map_block _ (List.length ld * List.length le) lc) with (a := c);
    [| intros c' _; apply length_flat_map_block; intros d' _; apply length_map
     | assumption | exact J1].
  rewrite (nth_error_flat_map_block _ (List.length le) ld) with (a := d);
    [| intros d' _; apply length_map | assumption | lia].
  rewrite nth_error_map, He. reflexivity.
Qed.

Lemma in_product5 (a : A) (b : B) (c : C) (d : D) (e : E) :
  In (a, b, c, d, e) (product5 la lb lc ld le) <->
  In a la /\ In b lb /\ In c lc /\ In d ld /\ In e le.
Proof.
  unfold product5. rewrite in_flat_map. split.
  - intros (a' & Ha & H). rewrite in_flat_map in H. destruct H as (b' & Hb & H).
    rewrite in_flat_map in H. destruct H as (c' & Hc & H).
    rewrite in_flat_map in H. destruct H as (d' & Hd & H).
    rewrite in_map_iff in H. destruct H as (e' & [= -> -> -> -> ->] & He).
    auto.
  - intros (Ha & Hb & Hc & Hd & He).
    exists a. split; [assumption|]. rewrite in_flat_map.
    exists b. split; [assumption|]. rewrite in_flat_map.
    exists c. split; [assumption|]. rewrite in_flat_map.
    exists d. split; [assumption|]. rewrite in_map_iff.
    exists e. auto.
Qed.

(** Lists without repetitions give tuples without repetitions. *)
Lemma NoDup_product5 :
  NoDup la -> NoDup lb -> NoDup lc -> NoDup ld -> NoDup le ->
  NoDup (product5 la lb lc ld le).
Proof.
  intros Ha Hb Hc Hd He. unfold product5.
  apply NoDup_flat_map; [assumption | |].
  - intros a _. apply NoDup_flat_map; [assumption | |].
    + intros b _. apply NoDup_flat_map; [assumption | |].
      * intros c _. apply NoDup_flat_map; [assumption | |].
        -- intros d _. apply NoDup_map_inj; [|assumption].
           intros e e' [= ->]. reflexivity.
        -- intros d d' x _ _ H H'.
           apply in_map_iff in H as (e & <- & _).
           apply in_map_iff in H' as (e' & [= ? ?] & _). congruence.
      * intros c c' x _ _ H H'.
        apply in_flat_map in H as (d & _ & H). apply in_map_iff in H as (e & <- & _).
        apply in_flat_map in H' as (d' & _ & H').
        apply in_map_iff in H' as (e' & [= ? ? ?] & _). congruence.
    + intros b b' x _ _ H H'.
      apply in_flat_map in H as (c & _ & H). apply in_flat_map in H as (d & _ & H).
      apply in_map_iff in H as (e & <- & _).
      apply in_flat_map in H' as (c' & _ & H'). apply in_flat_map in H' as (d' & _ & H').
      apply in_map_iff in H' as (e' & [= ? ? ? ?] & _). congruence.
  - intros a a' x _ _ H H'.
    apply in_flat_map in H as (b & _ & H). apply in_flat_map in H as (c & _ & H).
    apply in_flat_map in H as (d & _ & H). apply in_map_iff in H as (e & <- & _).
    apply in_flat_map in H' as (b' & _ & H'). apply in_flat_map in H' as (c' & _ & H').
    apply in_flat_map in H' as (d' & _ & H').
    apply in_map_iff in H' as (e' & [= ? ? ? ? ?] & _). congruence.
Qed.

End Product.

Lemma tuples_nonempty (args : arguments) : tuples args <> [].
Proof.
  intros H.
  pose proof (product5_length (expand (pktlen args)) (expand (numpkt args))
                (expand (phys args)) (expand (txpows args)) (expand (channel args))) as L.
  fold (tuples args) in L. rewrite H in L. clear H. rename L into H.
  cbn [List.length] in H.
  pose proof (expand_nonempty (pktlen args)).
  pose proof (expand_nonempty (numpkt args)).
  pose proof (expand_nonempty (phys args)).
  pose proof (expand_nonempty (txpows args)).
  pose proof (expand_nonempty (channel args)).
  destruct (expand (pktlen args)), (expand (numpkt args)), (expand (phys args)),
    (expand (txpows args)), (expand (channel args)); try contradiction.
  cbn [List.length] in H. nia.
Qed.


Lemma attenuations_nonempty (args : arguments) (levels : list value) :
  attenuations args = Ok levels -> levels <> [].
Proof.
  unfold attenuations. destruct (attens args) as [a|].
  - intros [= <-]. pose proof (expand_nonempty a).
    destruct (expand a); [contradiction | discriminate].
  - destruct (int (step args)) as [s0|]; [|discriminate]. cbn [rbind].
    destruct (if s0 =? 0 then _ else _) as [l|]; [|discriminate]. cbn [rbind].
    intros [= <-]. destruct l; discriminate.
Qed.

End ParamFacts.

(** ** The properties of the specification *)

Import Py FloatFacts PerFacts TrialFacts SweepFacts ParamFacts.

(** *** The example run *)

(** C3, as the script behaves. With packetLen=250, numPkt=5000, phy=1,
    txPower=0, channel=0, attens=[20,90], delay=1, the default limit and
    devices that report all 5000 packets at every end-test call, the run
    writes exactly two rows, both with PER 100.0 in both directions (the
    formula is received / requested * 100), the running maximum ends at
    100.0 and the exit code is 0. *)
Theorem full_reception_run (rf : bool) :
  exists s,
    run (steady_bench rf 5000) example_args = (Done 0, s) /\
    rows_of (written s) =
      [row_of example_tuple (PStr "20") (PFloat hundred) (PFloat hundred);
       row_of example_tuple (PStr "90") (PFloat hundred) (PFloat hundred)] /\
    perMax s = PFloat hundred.
Proof.
  destruct rf; eexists; (split; [vm_compute; reflexivity | split; reflexivity]).
Qed.

(** C3 as stated fails: in that run no recorded PER is 0 and the running
    maximum does not end at 0. *)
Lemma full_reception_per_not_zero :
  ~ (exists s,
       run (steady_bench false 5000) example_args = (Done 0, s) /\
       (forall v, In v (recorded (written s)) -> veqb v (PInt 0) = true) /\
       veqb (perMax s) (PInt 0) = true).
Proof.
  intros (s & E & _ & Hm).
  vm_compute in E. injection E as <-. discriminate Hm.
Qed.

(** *** Default attenuation levels *)

(** C5. Without an explicit attenuation list: for a step size S > 0 the
    levels are 20, 20+S, 20+2S, ... as long as they stay strictly below 90,
    followed by one 90; for S = 0 they are exactly [20, 70, 90]. *)
Theorem default_attenuation_levels (args : arguments) (S : Z) :
  attens args = None ->
  int (step args) = Ok S ->
  (0 < S ->
   exists k : nat,
     attenuations args
       = Ok (map PInt (map (fun i => 20 + Z.of_nat i * S) (seq 0 k) ++ [90])) /\
     forall i : nat, (i < k)%nat <-> 20 + Z.of_nat i * S < 90) /\
  (S = 0 -> attenuations args = Ok [PInt 20; PInt 70; PInt 90]).
Proof.
  intros Ha Hs. unfold attenuations. rewrite Ha, Hs. cbn [rbind]. split.
  - intros Hpos.
    destruct (range_positive_step 20 90 S Hpos ltac:(lia)) as (k & Hr & Hk).
    exists k. split; [|exact Hk].
    destruct (Z.eqb_spec S 0) as [|_]; [lia|]. now rewrite Hr.
  - intros ->. reflexivity.
Qed.

Lemma default_attenuation_levels_witness :
  exists k : nat,
    attenuations (default_args "s" "m" "r")
      = Ok (map PInt (map (fun i => 20 + Z.of_nat i * 10) (seq 0 k) ++ [90])) /\
    forall i : nat, (i < k)%nat <-> 20 + Z.of_nat i * 10 < 90.
Proof.
  apply (default_attenuation_levels (default_args "s" "m" "r") 10 eq_refl eq_refl).
  lia.
Defined.

(** *** The exit code *)

(** C6. After the full sweep, with a limit that reads as a number: the
    exit code is 0 when the limit equals zero, whatever the running
    maximum; it is 1 exactly when the limit is not zero and the running
    maximum exceeds it; and it is 0 otherwise. *)
Theorem exit_code_decision (hw : bench) (args : arguments) (s : state)
    (l : spec_float) :
  swept hw args s ->
  float (limit args) = Ok l ->
  exists c,
    run hw args = (Done c, closed s) /\
    (feqb l (S754_zero false) = true -> c = 0) /\
    (c = 1 <-> feqb l (S754_zero false) = false /\ gt (perMax s) (PFloat l) = Ok true) /\
    (c = 0 \/ c = 1).
Proof.
  intros (levels & Ha & Hs) Hl.
  pose proof (sweep_progress hw args False (tuples args) levels (started args)
                (fun _ _ F => False_ind _ F)
                (conj (tracked_started args) (fun F => False_ind _ F))) as P.
  rewrite Hs in P. cbn [fst snd] in P. destruct P as ((((R & _) & _) & _) & _).
  destruct (gt_num (perMax s) (PFloat l) (real_num _ R) eq_refl) as [g Hg].
  rewrite run_eq, Ha, Hs.
  unfold exit_code, bind, lift, get, ret. rewrite Hl. unfold ne. cbn [num_exact].
  destruct (feqb l (S754_zero false)); cbn [negb]; cbv beta iota;
    change (perMax (closed s)) with (perMax s); rewrite ?Hg.
  - exists 0. split; [reflexivity|]. split; [reflexivity|]. split; [|now left].
    split; [discriminate | intros [? _]; discriminate].
  - destruct g.
    + exists 1. split; [reflexivity|]. split; [discriminate|]. split; [|now right].
      split; auto.
    + exists 0. split; [reflexivity|]. split; [reflexivity|]. split; [|now left].
      split; [discriminate | intros [_ ?]; discriminate].
Qed.

Lemma exit_code_decision_witness :
  exists c,
    run (steady_bench false 5000) (with_limit (PStr "50") example_args)
      = (Done c, closed (snd (sweep (steady_bench false 5000)
                                (with_limit (PStr "50") example_args)
                                [example_tuple] [PStr "20"; PStr "90"]
                                (started example_args)))) /\
    (feqb (roundZ 50) (S754_zero false) = true -> c = 0) /\
    (c = 1 <-> feqb (roundZ 50) (S754_zero false) = false /\
               gt (PFloat hundred) (PFloat (roundZ 50)) = Ok true) /\
    (c = 0 \/ c = 1).
Proof.
  apply (exit_code_decision (steady_bench false 5000)
           (with_limit (PStr "50") example_args)).
  - exists [PStr "20"; PStr "90"]. split; [reflexivity | vm_compute; reflexivity].
  - vm_compute. reflexivity.
Defined.

(** *** The order of the sweep *)

(** C7. The parameter tuples are all combinations of packet length,
    packet number, PHY, TX power and channel: the combination of the
    [ia]-th length, [ib]-th number, ... is at the position with these
    mixed-radix digits, packet length most significant and channel least,
    there are as many tuples as combinations of positions, a tuple is
    swept exactly when its components are in the lists, and no tuple is
    repeated when no list repeats an entry. The rows of a run follow this
    order, every tuple with every level: complete when the run reaches its
    exit, an initial part of it when the run dies. *)
Theorem sweep_enumerates_product (hw : bench) (args : arguments) :
  (forall ia ib ic id ie a b c d e,
     nth_error (expand (pktlen args)) ia = Some a ->
     nth_error (expand (numpkt args)) ib = Some b ->
     nth_error (expand (phys args)) ic = Some c ->
     nth_error (expand (txpows args)) id = Some d ->
     nth_error (expand (channel args)) ie = Some e ->
     nth_error (tuples args)
       ((((ia * List.length (expand (numpkt args)) + ib)
          * List.length (expand (phys args)) + ic)
         * List.length (expand (txpows args)) + id)
        * List.length (expand (channel args)) + ie)
     = Some (a, b, c, d, e)) /\
  List.length (tuples args)
  = (List.length (expand (pktlen args)) *
     (List.length (expand (numpkt args)) *
      (List.length (expand (phys args)) *
       (List.length (expand (txpows args)) * List.length (expand (channel args))))))%nat /\
  (forall a b c d e,
     In (a, b, c, d, e) (tuples args) <->
     In a (expand (pktlen args)) /\ In b (expand (numpkt args)) /\
     In c (expand (phys args)) /\ In d (expand (txpows args)) /\
     In e (expand (channel args))) /\
  (NoDup (expand (pktlen args)) -> NoDup (expand (numpkt args)) ->
   NoDup (expand (phys args)) -> NoDup (expand (txpows args)) ->
   NoDup (expand (channel args)) -> NoDup (tuples args)) /\
  (forall levels o s,
     attenuations args = Ok levels ->
     run hw args = (o, s) ->
     exists rest,
       schedule (tuples args) levels = map key (rows_of (written s)) ++ rest /\
       (forall c, o = Done c -> rest = [])).
Proof.
  split; [|split; [|split; [|split]]].
  - intros. now apply product5_nth.
  - apply product5_length.
  - intros. apply in_product5.
  - apply NoDup_product5.
  - intros levels o s Ha Hr. rewrite run_eq, Ha in Hr.
    pose proof (sweep_progress hw args False (tuples args) levels (started args)
                  (fun _ _ F => False_ind _ F)
                  (conj (tracked_started args) (fun F => False_ind _ F)))
      as (_ & _ & (done & W & P)).
    destruct (sweep hw args (tuples args) levels (started args)) as [[u|e|] s1];
      cbn [fst snd] in *.
    + apply exit_code_state in Hr as ->.
      cbn [closed written]. rewrite rows_of_blank, W. cbn [started written rows_of rev flat_map app].
      exists []. rewrite app_nil_r. split; [now rewrite P | reflexivity].
    + injection Hr as <- <-. rewrite W. cbn [started written rows_of rev flat_map app].
      destruct P as [rest ->]. exists rest. split; [reflexivity | discriminate].
    + contradiction.
Qed.

Lemma sweep_enumerates_product_witness :
  nth_error (tuples example_args) 0 = Some example_tuple.
Proof.
  apply (proj1 (sweep_enumerates_product silent_bench example_args) 0 0 0 0 0)%nat;
    reflexivity.
Defined.

(** *** The running maximum *)



(** The fuel given to the retry loop is enough: no run ends for want of
    it. *)
Lemma run_total (hw : bench) (args : arguments) : fst (run hw args) <> NoFuel.
Proof.
  rewrite run_eq. destruct (attenuations args) as [levels|e]; [|discriminate].
  pose proof (sweep_progress hw args False (tuples args) levels (started args)
                (fun _ _ F => False_ind _ F)
                (conj (tracked_started args) (fun F => False_ind _ F)))
    as (_ & _ & (done & _ & P)).
  destruct (sweep hw args (tuples args) levels (started args)) as [[u|e|] s1];
    cbn [fst snd] in *; [|discriminate|contradiction].
  unfold exit_code, bind, lift, get, ret.
  destruct (float (limit args)); [|discriminate].
  destruct (ne _ _); [|discriminate].
  destruct (gt _ _) as [[]|]; discriminate.
Qed.

(** *** The PER values *)

(** C8. In a level entered with retry budget left whose measurement
    obtains both counts, the values recorded are the received counts
    divided by the packet number, times 100 ([per]), the slave's count of
    line 175 for the slave and the master's of line 193 for the master;
    when the counts lie between 0 and the packet number the level is
    recorded and both values lie between 0 and 100. In a level entered
    with the budget used up both recorded values are exactly 100. *)
Theorem per_values (hw : bench) (args : arguments) (t : tuple)
    (atten : value) (s : state) :
  is_num (perMax s) = true ->
  (forall d n cs cm,
     per_100 s < RETRY ->
     obtains hw args t atten s d n cs cm ->
     (forall s',
        trial hw args t atten s = (Done tt, s') ->
        exists ps pm,
          per (PInt (Z.of_N cs)) n = Ok ps /\ per (PInt (Z.of_N cm)) n = Ok pm /\
          perSlave s' = Some ps /\ perMaster s' = Some pm /\
          written s' = Data (row_of t atten pm ps) :: written s) /\
     (0 < n -> Z.of_N cs <= n -> Z.of_N cm <= n ->
      exists ps pm,
        per (PInt (Z.of_N cs)) n = Ok ps /\ per (PInt (Z.of_N cm)) n = Ok pm /\
        trial hw args t atten s =
          (Done tt,
           measured t atten pm ps
             (EndTest Master :: history_master (rf_switch hw) t atten d (log s)) s) /\
        vleb (PInt 0) ps = true /\ vleb ps (PInt 100) = true /\
        vleb (PInt 0) pm = true /\ vleb pm (PInt 100) = true)) /\
  (RETRY <= per_100 s ->
   trial hw args t atten s =
     (Done tt, gave_up t atten s) /\
   written (gave_up t atten s)
   = Data (row_of t atten (PInt 100) (PInt 100)) :: written s).
Proof.
  intros Hmx. split.
  - intros d n cs cm Hp (Hd & Hd0 & Hn & Hcs & Hcm). split.
    + intros s' Ht.
      destruct (trial_cases hw args t atten s Hmx)
        as [[Hp' _] | [[_ (d' & n' & cs' & cm' & ps & pm & Ho & Eps & Epm & E)]
                      | [_ (e & s'' & E & _)]]].
      * lia.
      * destruct Ho as (Hd' & _ & Hn' & Hcs' & Hcm').
        assert (d' = d) by congruence. assert (n' = n) by congruence. subst d' n'.
        assert (cs' = cs) by congruence. assert (cm' = cm) by congruence. subst cs' cm'.
        rewrite E in Ht. injection Ht as <-.
        exists ps, pm. repeat (split; [assumption || reflexivity|]). reflexivity.
      * rewrite E in Ht. discriminate.
    + intros Hpos Hs Hm.
      destruct (per_in_range cs n Hpos Hs) as (fs & Eps & Ls & Us).
      destruct (per_in_range cm n Hpos Hm) as (fm & Epm & Lm & Um).
      exists (PFloat fs), (PFloat fm).
      split; [assumption|]. split; [assumption|]. split.
      * now apply (trial_measured hw args t atten s d n cs cm).
      * auto.
  - intros Hp. split; [now apply trial_give_up | reflexivity].
Qed.

Lemma per_values_witness :
  exists ps pm,
    per (PInt 4999) 5000 = Ok ps /\ per (PInt 4999) 5000 = Ok pm /\
    trial (steady_bench false 4999) example_args example_tuple (PStr "20") init =
      (Done tt,
       measured example_tuple (PStr "20") pm ps
         (EndTest Master :: history_master false example_tuple (PStr "20") 1 []) init) /\
    vleb (PInt 0) ps = true /\ vleb ps (PInt 100) = true /\
    vleb (PInt 0) pm = true /\ vleb pm (PInt 100) = true.
Proof.
  assert (O : obtains (steady_bench false 4999) example_args example_tuple
                (PStr "20") init 1 5000 4999 4999).
  { unfold obtains. repeat split. lia. }
  apply (proj2 (proj1 (per_values (steady_bench false 4999) example_args
                         example_tuple (PStr "20") init eq_refl)
                  1 5000 4999%N 4999%N eq_refl O));
    cbn; lia.
Defined.

(** *** Missing counts *)

(** C1 fails on the code: a level entered with retry budget left in which
    an end-test call reports no count is not retried. The division of
    [None] on line 175 (slave) or line 193 (master) raises [TypeError]
    before the test of line 199 is reached; the process ends there, the
    retry counter as it was and no row written. *)
Theorem missing_count_ends_process (hw : bench) (args : arguments)
    (t : tuple) (atten : value) (s : state) (d n : Z) :
  per_100 s < RETRY ->
  int (delay args) = Ok d -> 0 <= d ->
  int (PStr (numPkt_of t)) = Ok n ->
  endTestFunc hw (history_slave (rf_switch hw) t atten d (log s)) Slave = None \/
  (exists cs ps,
     endTestFunc hw (history_slave (rf_switch hw) t atten d (log s)) Slave = Some cs /\
     per (PInt (Z.of_N cs)) n = Ok ps /\
     endTestFunc hw (history_master (rf_switch hw) t atten d (log s)) Master = None) ->
  exists s',
    trial hw args t atten s = (Uncaught TypeError, s') /\
    per_100 s' = per_100 s /\ written s' = written s.
Proof.
  intros Hp Hd Hd0 Hn [Hcs | (cs & ps & Hcs & Hps & Hcm)].
  - eexists. split.
    + apply trial_dies; [assumption|].
      now apply (attempt_slave_silent hw args t atten s d n).
    + split; reflexivity.
  - eexists. split.
    + apply trial_dies; [assumption|].
      now apply (attempt_master_silent hw args t atten s d n cs ps).
    + split; reflexivity.
Qed.

Lemma missing_count_ends_process_witness :
  exists s',
    trial silent_bench example_args example_tuple (PStr "20") (started example_args)
      = (Uncaught TypeError, s') /\
    per_100 s' = 0 /\ written s' = [].
Proof.
  apply (missing_count_ends_process silent_bench example_args example_tuple
           (PStr "20") (started example_args) 1 5000);
    try reflexivity; [lia | now left].
Defined.

(** With devices that never report a count the whole run ends in the
    first measurement: one attempt, no retry, no row. *)
Example silent_run :
  run silent_bench example_args =
    (Uncaught TypeError,
     {| log := EndTest Slave
               :: history_slave false example_tuple (PStr "20") 1
                    (log (started example_args));
        written := []; per_100 := 0; perMax := PInt 0;
        perMaster := None; perSlave := None |}).
Proof. vm_compute. reflexivity. Qed.

(** *** The retry budget *)




(** C10. Once the retry budget is used up, all the levels that remain for
    the tuple are given up: no command is sent, each gets the forced row
    (100, 100) in order, and the counter stays where it is. The next
    tuple starts with the counter at 0: its first level is measured when
    the devices deliver, whatever the counter was. *)
Theorem exhausted_budget_skips_levels (hw : bench) (args : arguments)
    (t : tuple) (levels : list value) (s : state) :
  RETRY <= per_100 s ->
  (exists s',
     for_each levels (trial hw args t) s = (Done tt, s') /\
     log s' = log s /\
     per_100 s' = per_100 s /\
     rows_of (written s')
     = rows_of (written s) ++ map (fun a => row_of t a (PInt 100) (PInt 100)) levels) /\
  (forall t' a rest d n cs cm ps pm,
     is_num (perMax s) = true ->
     obtains hw args t' a (fresh s) d n cs cm ->
     per (PInt (Z.of_N cs)) n = Ok ps ->
     per (PInt (Z.of_N cm)) n = Ok pm ->
     sweep_tuple hw args (a :: rest) t' s
     = for_each rest (trial hw args t')
         (measured t' a pm ps
            (EndTest Master :: history_master (rf_switch hw) t' a d (log s))
            (fresh s))).
Proof.
  intros Hp. split.
  - exists (gave_up_all t levels s). split; [now apply levels_give_up|].
    apply gave_up_all_spec.
  - intros t' a rest d n cs cm ps pm Hmx (Hd & Hd0 & Hn & Hcs & Hcm) Hps Hpm.
    rewrite sweep_tuple_eq. cbn [for_each]. unfold bind.
    rewrite (trial_measured hw args t' a (fresh s) d n cs cm ps pm); auto.
    cbn. unfold RETRY. lia.
Qed.

Lemma exhausted_budget_skips_levels_witness :
  exists s',
    for_each [PStr "20"; PStr "90"]
      (trial (steady_bench false 5000) example_args example_tuple) exhausted
    = (Done tt, s') /\
    log s' = [] /\
    per_100 s' = 2 /\
    rows_of (written s')
    = [] ++ map (fun a => row_of example_tuple a (PInt 100) (PInt 100))
              [PStr "20"; PStr "90"].
Proof.
  apply (proj1 (exhausted_budget_skips_levels (steady_bench false 5000) example_args
                  example_tuple [PStr "20"; PStr "90"] exhausted
                  ltac:(unfold RETRY; cbn; lia))).
Defined.

(** *** Malformed option values *)

(** C9 as stated fails: the options are kept as the strings they are and
    read only where they are used. With the delay "abc" the run dies at
    the first wait, the devices connected, reset, configured and put in
    test mode; with the limit "abc" it dies after the whole sweep, both
    rows and the closing blank line written. *)
Lemma malformed_values_fail_late :
  (exists s,
     run (steady_bench false 5000) (with_delay (PStr "abc") example_args)
       = (Uncaught ValueError, s) /\
     log s = [TxTestVS Master "0" "1" "250" "5000"; RxTest Slave "0" "1";
              SetTxPower Master "0"; SetTxPower Slave "0"; SetPhy Master "1";
              Reset Master; Reset Slave; Connect Master "m" ""; Connect Slave "s" ""]) /\
  (exists s,
     run (steady_bench false 5000) (with_limit (PStr "abc") example_args)
       = (Uncaught ValueError, s) /\
     written s =
       [Blank;
        Data (row_of example_tuple (PStr "90") (PFloat hundred) (PFloat hundred));
        Data (row_of example_tuple (PStr "20") (PFloat hundred) (PFloat hundred))]).
Proof.
  split; eexists; (split; [vm_compute; reflexivity | reflexivity]).
Qed.

(** C9, as the script behaves. A step size that is no number ends the run
    at startup, before any device is connected or commanded and before
    anything is written, when no attenuation list is given; with a list
    the step is not read at all. A delay that is no number ends the run
    at the first wait of the first measurement: the devices are connected,
    reset, configured and in test mode, and nothing is written. A limit
    that is no number ends the run after the complete sweep, the last
    reset and the closing blank line. *)
Theorem malformed_values (hw : bench) (args : arguments) :
  (forall e,
     attens args = None -> int (step args) = Raise e ->
     run hw args = (Uncaught e, init)) /\
  (forall a v,
     attens args = Some a -> run hw (with_step v args) = run hw args) /\
  (forall e levels,
     attenuations args = Ok levels -> int (delay args) = Raise e ->
     exists t a s,
       hd_error (tuples args) = Some t /\ hd_error levels = Some a /\
       run hw args = (Uncaught e, s) /\
       written s = [] /\
       log s = tl (setup_cmds (rf_switch hw) t a 0) ++ log (started args)) /\
  (forall e s,
     swept hw args s -> float (limit args) = Raise e ->
     run hw args = (Uncaught e, closed s)).
Proof.
  split; [|split; [|split]].
  - intros e Ha Hs. rewrite run_eq. unfold attenuations. now rewrite Ha, Hs.
  - intros a v Ha. rewrite !run_eq. unfold attenuations.
    change (attens (with_step v args)) with (attens args). rewrite Ha.
    reflexivity.
  - intros e levels Ha Hd.
    pose proof (tuples_nonempty args) as Nt.
    pose proof (attenuations_nonempty args levels Ha) as Nl.
    rewrite run_eq, Ha.
    destruct (tuples args) as [|t ts]; [contradiction|].
    destruct levels as [|a ls]; [contradiction|].
    exists t, a. eexists. split; [reflexivity|]. split; [reflexivity|].
    unfold sweep. cbn [for_each]. unfold bind at 1. rewrite sweep_tuple_eq.
    cbn [for_each]. unfold bind at 1.
    rewrite (trial_dies hw args t a (fresh (started args)) _ e
               ltac:(cbn; unfold RETRY; lia)
               (attempt_bad_delay hw args t a (fresh (started args)) e Hd)).
    split; [reflexivity|]. split; reflexivity.
  - intros e s (levels & Ha & Hs) Hl. rewrite run_eq, Ha, Hs.
    unfold exit_code, bind, lift. now rewrite Hl.
Qed.

Lemma malformed_values_witness :
  run (steady_bench false 5000) (with_limit (PStr "abc") example_args)
  = (Uncaught ValueError,
     closed (snd (sweep (steady_bench false 5000) example_args
                    [example_tuple] [PStr "20"; PStr "90"] (started example_args)))).
Proof.
  apply (proj2 (proj2 (proj2 (malformed_values (steady_bench false 5000)
                                (with_limit (PStr "abc") example_args))))).
  - exists [PStr "20"; PStr "90"]. split; [reflexivity | vm_compute; reflexivity].
  - reflexivity.
Defined.

(** ** Further facts about the script *)

Module ExtraFacts.
Import Py FloatFacts PerFacts TrialFacts SweepFacts ParamFacts.

(** *** Exact endpoints of the PER formula *)

Lemma div_eucl_div_mod (a b : Z) : Z.div_eucl a b = (a / b, a mod b).
Proof. unfold Z.div, Z.modulo. now destruct (Z.div_eucl a b). Qed.

(** A positive integer divided by itself is exactly 1.0. *)
Lemma div_self (p : positive) :
  SFdiv prec emax (exactZ (Zpos p)) (exactZ (Zpos p))
  = S754_finite false 4503599627370496 (-52).
Proof.
  cbn [exactZ SFdiv]. unfold SFdiv_core_binary. cbn [Zdigits2].
  replace (Zpos (digits2_pos p) + 0 - (Zpos (digits2_pos p) + 0)) with 0 by lia.
  change (Z.min (fexp prec emax 0) (0 - 0)) with (-53).
  change (0 - 0 - -53) with 53.
  cbv beta iota zeta.
  rewrite Z.shiftl_mul_pow2 by lia.
  rewrite div_eucl_div_mod.
  rewrite Z.mul_comm, Z.div_mul, Z.mod_mul by lia.
  unfold new_location, new_location_even, new_location_odd.
  destruct (Z.even (Zpos p)); reflexivity.
Qed.

Lemma per_full (n : Z) : 0 < n -> per (PInt n) n = Ok (PFloat hundred).
Proof.
  intros H. rewrite per_int_eq by lia. cbv zeta.
  destruct n as [|p|p]; try lia. rewrite div_self. reflexivity.
Qed.

Lemma per_nothing (n : Z) : 0 < n -> per (PInt 0) n = Ok (PFloat (S754_zero false)).
Proof.
  intros H. rewrite per_int_eq by lia. destruct n as [|p|p]; try lia. reflexivity.
Qed.


(** *** Fields of an option *)









(** *** Loops that get through *)





Section Log.

Variable hw : bench.
Variable args : arguments.

Ltac pick_skip :=
  first [ exists 0%nat; reflexivity | exists 1%nat; reflexivity
        | exists 2%nat; reflexivity | exists 3%nat; reflexivity
        | exists 4%nat; reflexivity | exists 5%nat; reflexivity
        | exists 6%nat; reflexivity | exists 7%nat; reflexivity
        | exists 8%nat; reflexivity | exists 9%nat; reflexivity
        | exists 10%nat; reflexivity | exists 11%nat; reflexivity
        | exists 12%nat; reflexivity | exists 13%nat; reflexivity
        | exists 14%nat; reflexivity | exists 15%nat; reflexivity
        | exists 16%nat; reflexivity | exists 17%nat; reflexivity
        | exists 18%nat; reflexivity ].

Ltac split_match :=
  match goal with
  | |- context [match ?x with _ => _ end] =>
      let T := type of x in
      lazymatch T with
      | bool => destruct x
      | result _ => destruct x
      | option _ => destruct x
      | value => destruct x
      end
  end; cbv beta iota.

(** Whatever happens in a measurement, the commands it has sent are the
    first ones, in time, of the fixed sequence. *)
Lemma attempt_log (t : tuple) (atten : value) (s : state) :
  exists d k,
    log (snd (attempt hw args t atten s))
    = skipn k (protocol (rf_switch hw) t atten d) ++ log s.
Proof.
  destruct t as [[[[packetLen numPkt] phy] txPower] chan].
  destruct s as [lg wr p100 mx vm vs].
  unfold protocol, history_master, history_slave, setup_cmds, swap_cmds.
  unfold attempt.
  cbv beta iota delta [bind ret lift get modify send write set_per_100 set_perMax
    set_perMaster set_perSlave read when sleep end_test per_of
    log written per_100 perMax perMaster perSlave].
  destruct (rf_switch hw); cbn [app];
    (destruct (int (delay args)) as [d|e]; cbv beta iota;
     [ exists d; destruct (d <? 0); cbv beta iota;
       [ cbn [snd]; pick_skip | ]
     | exists 0; cbn [snd]; pick_skip ]).
  all: repeat split_match.
  all: cbn [snd]; pick_skip.
Qed.

Lemma protocol_app (rf : bool) (t : tuple) (atten : value) (d : Z)
    (l : list command) :
  protocol rf t atten d ++ l = EndTest Master :: history_master rf t atten d l.
Proof.
  destruct t as [[[[packetLen numPkt] phy] txPower] chan], rf; reflexivity.
Qed.

Ltac crank :=
  unfold attempt;
  cbv beta iota delta [bind ret lift get modify send write set_per_100 set_perMax
    set_perMaster set_perSlave read when sleep end_test
    log written per_100 perMax perMaster perSlave];
  unfold history_master, history_slave, setup_cmds, swap_cmds in *;
  destruct (rf_switch hw); cbn [app tl] in *;
  repeat first
    [ rewrite per_of_eq; cbv beta iota delta [lift]
    | match goal with
      | H : _ = _ |- _ => rewrite H; cbn [rbind]; cbv beta iota
      end ];
  reflexivity.


(** A packet number that [int()] refuses, or that is zero, is found out
    on line 175, when the first direction has been tested. *)
Lemma attempt_bad_number (t : tuple) (atten : value) (s : state) (d : Z)
    (e : exn) :
  int (delay args) = Ok d -> 0 <= d ->
  int (PStr (numPkt_of t)) = Raise e ->
  attempt hw args t atten s =
    (Uncaught e,
     {| log := EndTest Slave :: history_slave (rf_switch hw) t atten d (log s);
        written := written s; per_100 := per_100 s; perMax := perMax s;
        perMaster := perMaster s; perSlave := perSlave s |}).
Proof.
  intros Hd Hd0 Hn. apply Z.ltb_ge in Hd0.
  destruct t as [[[[packetLen numPkt] phy] txPower] chan], s.
  cbn [log written per_100 perMax perMaster perSlave numPkt_of] in *. crank.
Qed.

Lemma attempt_zero_number (t : tuple) (atten : value) (s : state) (d : Z)
    (cs : N) :
  int (delay args) = Ok d -> 0 <= d ->
  int (PStr (numPkt_of t)) = Ok 0 ->
  endTestFunc hw (history_slave (rf_switch hw) t atten d (log s)) Slave = Some cs ->
  attempt hw args t atten s =
    (Uncaught ZeroDivisionError,
     {| log := EndTest Slave :: history_slave (rf_switch hw) t atten d (log s);
        written := written s; per_100 := per_100 s; perMax := perMax s;
        perMaster := perMaster s; perSlave := perSlave s |}).
Proof.
  intros Hd Hd0 Hn Hcs. apply Z.ltb_ge in Hd0.
  pose proof (per_zero_div (Z.of_N cs)) as Hz.
  destruct t as [[[[packetLen numPkt] phy] txPower] chan], s.
  cbn [log written per_100 perMax perMaster perSlave numPkt_of] in *. crank.
Qed.

(** How a level leaves the state, whichever way it goes. *)
Lemma trial_shape (t : tuple) (atten : value) (s : state) :
  is_num (perMax s) = true ->
  per_100 (snd (trial hw args t atten s)) = per_100 s /\
  (exists d k,
     log (snd (trial hw args t atten s))
     = skipn k (protocol (rf_switch hw) t atten d) ++ log s) /\
  match fst (trial hw args t atten s) with
  | Done _ =>
      (RETRY <= per_100 s /\
       log (snd (trial hw args t atten s)) = log s /\
       written (snd (trial hw args t atten s))
       = Data (row_of t atten (PInt 100) (PInt 100)) :: written s) \/
      (per_100 s < RETRY /\
       exists d fm fs,
         log (snd (trial hw args t atten s))
         = protocol (rf_switch hw) t atten d ++ log s /\
         written (snd (trial hw args t atten s))
         = Data (row_of t atten (PFloat fm) (PFloat fs)) :: written s)
  | Uncaught _ =>
      written (snd (trial hw args t atten s)) = written s /\
      perMax (snd (trial hw args t atten s)) = perMax s
  | NoFuel => False
  end.
Proof.
  intros Hmx.
  destruct (Z.le_gt_cases RETRY (per_100 s)) as [H|H].
  - rewrite (trial_give_up hw args t atten s H). cbn [fst snd gave_up log per_100 written].
    split; [reflexivity|]. split.
    + exists 0, (List.length (protocol (rf_switch hw) t atten 0)).
      now rewrite skipn_all.
    + left. auto.
  - destruct (attempt_cases hw args t atten s)
      as [(d & n & cs & cm & ps & pm & Hd & Hd0 & Hn & Hcs & Hcm & Hps & Hpm)
         |(e & s' & A & (Dw & Dp & Dm))].
    + rewrite (trial_measured hw args t atten s d n cs cm ps pm); auto.
      destruct (per_is_float _ _ _ Hps) as [fs ->].
      destruct (per_is_float _ _ _ Hpm) as [fm ->].
      cbn [fst snd measured log per_100 written].
      split; [reflexivity|]. split.
      * exists d, 0%nat. cbn [skipn]. now rewrite protocol_app.
      * right. split; [assumption|]. exists d, fm, fs.
        split; [now rewrite protocol_app | reflexivity].
    + pose proof (attempt_log t atten s) as (d & k & L). rewrite A in L. cbn [snd] in L.
      rewrite (trial_dies hw args t atten s s' e H A). cbn [fst snd].
      split; [assumption|]. split; [exists d, k; exact L | split; assumption].
Qed.

(** A property of the state that holds when the sweep starts and that the
    reset of the counter and every level keep holds where the sweep
    ends. *)
Lemma sweep_keeps (P : state -> Prop) (levels : list value) :
  P (started args) ->
  (forall s, P s -> P (fresh s)) ->
  (forall t atten s,
     is_num (perMax s) = true -> P s -> P (snd (trial hw args t atten s))) ->
  P (snd (sweep hw args (tuples args) levels (started args))).
Proof.
  intros P0 Pf Pt.
  assert (K : forall s, sweep_inv s /\ P s ->
                sweep_inv (snd (sweep hw args (tuples args) levels s)) /\
                P (snd (sweep hw args (tuples args) levels s))).
  { intros s Hs.
    apply (for_each_rel (sweep_tuple hw args levels) (fun s => sweep_inv s /\ P s)
             (fun _ _ => True) (fun _ _ => I) (fun _ _ _ _ _ => I)); [|assumption].
    intros t s0 [I0 P0']. split; [|exact I]. rewrite sweep_tuple_eq.
    apply (for_each_rel (trial hw args t) (fun s => sweep_inv s /\ P s)
             (fun _ _ => True) (fun _ _ => I) (fun _ _ _ _ _ => I)).
    - intros a s1 [I1 P1]. split; [|exact I]. split.
      + now apply trial_monotone.
      + apply Pt; [|assumption]. destruct I1 as [R _]. now apply real_num.
    - split; [|now apply Pf].
      destruct I0 as [R _]. split; [exact R | cbn; unfold RETRY; lia]. }
  apply K. split; [|assumption]. split; [reflexivity | intros _; reflexivity].
Qed.

(** Where a run can end: before the sweep, in it, or after it. *)
Lemma run_cases (o : outcome Z) (s : state) :
  run hw args = (o, s) ->
  (exists e, attenuations args = Raise e /\ o = Uncaught e) /\ s = init \/
  exists levels,
    attenuations args = Ok levels /\
    ((exists e, sweep hw args (tuples args) levels (started args) = (Uncaught e, s) /\
                o = Uncaught e) \/
     (exists s1, sweep hw args (tuples args) levels (started args) = (Done tt, s1) /\
                 s = closed s1)).
Proof.
  rewrite run_eq. destruct (attenuations args) as [levels|e] eqn:Ha.
  - intros Hr. right. exists levels. split; [reflexivity|].
    pose proof (sweep_progress hw args False (tuples args) levels (started args)
                  (fun _ _ F => False_ind _ F)
                  (conj (tracked_started args) (fun F => False_ind _ F)))
      as (_ & _ & (done & _ & P)).
    destruct (sweep hw args (tuples args) levels (started args)) as [[[]|e|] s1];
      cbn [fst snd] in *.
    + right. exists s1. split; [reflexivity|]. now apply exit_code_state in Hr.
    + left. exists e. injection Hr as <- <-. auto.
    + contradiction.
  - intros [= <- <-]. left. split; [eauto | reflexivity].
Qed.

(** *** Levels that are measured *)





End Log.

Section Twin.

(** Two benches that agree on the attenuator and on what the receiving
    device answers: the slave right after the master's end-test call, the
    master right after the slave's. *)
Variables hw hw' : bench.
Variable args : arguments.
Hypothesis same_switch : rf_switch hw = rf_switch hw'.
Hypothesis same_slave :
  forall l, endTestFunc hw (EndTest Master :: l) Slave
            = endTestFunc hw' (EndTest Master :: l) Slave.
Hypothesis same_master :
  forall l, endTestFunc hw (EndTest Slave :: l) Master
            = endTestFunc hw' (EndTest Slave :: l) Master.

Ltac split_match :=
  match goal with
  | |- context [match ?x with _ => _ end] =>
      let T := type of x in
      lazymatch T with
      | bool => destruct x
      | result _ => destruct x
      | option _ => destruct x
      | value => destruct x
      end
  end; cbv beta iota.

Lemma attempt_twin (t : tuple) (atten : value) (s : state) :
  attempt hw args t atten s = attempt hw' args t atten s.
Proof.
  destruct t as [[[[packetLen numPkt] phy] txPower] chan].
  destruct s as [lg wr p100 mx vm vs].
  unfold attempt. rewrite <- same_switch.
  cbv beta iota delta [bind ret lift get modify send write set_per_100 set_perMax
    set_perMaster set_perSlave read when sleep end_test per_of
    log written per_100 perMax perMaster perSlave].
  destruct (rf_switch hw); cbv beta iota;
    repeat first [ reflexivity | rewrite same_slave | rewrite same_master | split_match ].
Qed.

Lemma while_retry_twin (fuel : nat) (t : tuple) (atten : value) (s : state) :
  while_retry fuel (attempt hw args t atten) s
  = while_retry fuel (attempt hw' args t atten) s.
Proof.
  revert s. induction fuel as [|fuel IH]; intros s; cbn [while_retry]; [reflexivity|].
  unfold bind, get. destruct (per_100 s <? RETRY); [|reflexivity].
  rewrite attempt_twin.
  destruct (attempt hw' args t atten s) as [[[]|e|] s']; try reflexivity. apply IH.
Qed.

Lemma trial_twin (t : tuple) (atten : value) (s : state) :
  trial hw args t atten s = trial hw' args t atten s.
Proof.
  destruct t as [[[[packetLen numPkt] phy] txPower] chan].
  unfold trial. unfold bind at 1 3. unfold get at 1 3.
  unfold bind at 1 3. now rewrite while_retry_twin.
Qed.

Lemma for_each_ext {A} (f g : A -> M unit) (l : list A) (s : state) :
  (forall a s', f a s' = g a s') -> for_each l f s = for_each l g s.
Proof.
  intros E. revert s. induction l as [|a l IH]; intros s; [reflexivity|].
  cbn [for_each]. unfold bind. rewrite E.
  destruct (g a s) as [[u|e|] s']; try reflexivity. apply IH.
Qed.

Lemma run_twin : run hw args = run hw' args.
Proof.
  rewrite !run_eq. destruct (attenuations args) as [levels|e]; [|reflexivity].
  assert (E : sweep hw args (tuples args) levels (started args)
              = sweep hw' args (tuples args) levels (started args)).
  { unfold sweep. apply for_each_ext. intros t s.
    rewrite !sweep_tuple_eq. apply for_each_ext. intros a s'. apply trial_twin. }
  now rewrite E.
Qed.

End Twin.
End ExtraFacts.

(** ** Further properties of the script *)

Import ExtraFacts.

(** X1. The retry counter never moves and the forced row is never
    written: whatever the devices answer and however the run ends, the
    counter is 0 at the end and every PER value in the results file is a
    float computed by the formula, none the forced int 100 of lines
    215-216. *)
Theorem retry_counter_never_moves (hw : bench) (args : arguments) :
  per_100 (snd (run hw args)) = 0 /\
  Forall (fun v => exists f, v = PFloat f)
         (recorded (written (snd (run hw args)))).
Proof.
  set (P := fun s : state =>
              per_100 s = 0 /\
              Forall (fun v => exists f, v = PFloat f) (recorded (written s))).
  assert (K : forall levels,
            P (snd (sweep hw args (tuples args) levels (started args)))).
  { intros levels. apply sweep_keeps.
    - split; [reflexivity | constructor].
    - intros s [_ F]. split; [reflexivity | exact F].
    - intros t atten s Hmx [Hp F].
      destruct (trial_shape hw args t atten s Hmx) as (Ep & _ & Hs).
      split; [now rewrite Ep|].
      destruct (fst (trial hw args t atten s)).
      + destruct Hs as [(Hr & _) | (_ & d & fm & fs & _ & W)].
        * unfold RETRY in Hr. lia.
        * rewrite W, recorded_data. apply Forall_app. split; [exact F|].
          destruct (row_of_per t atten (PFloat fm) (PFloat fs)) as [-> ->].
          repeat constructor; eauto.
      + destruct Hs as [W _]. now rewrite W.
      + contradiction. }
  destruct (run hw args) as [o s] eqn:Hr. cbn [snd].
  apply run_cases in Hr as [[_ ->] | (levels & _ & [(e & E & _) | (s1 & E & ->)])].
  - split; [reflexivity | constructor].
  - specialize (K levels). rewrite E in K. exact K.
  - specialize (K levels). rewrite E in K. destruct K as [Kp Kf].
    split; [exact Kp|]. cbn [closed written]. now rewrite recorded_blank.
Qed.

(** X2. The counts of the transmitting device are not used: a run depends
    on the devices only through what the slave answers right after the
    master's end-test call (line 175) and the master right after the
    slave's (line 193). What the calls of lines 174 and 192 return, a count
    or nothing, changes nothing. *)
Theorem transmitter_answers_unused (hw hw' : bench) (args : arguments) :
  rf_switch hw = rf_switch hw' ->
  (forall l, endTestFunc hw (EndTest Master :: l) Slave
             = endTestFunc hw' (EndTest Master :: l) Slave) ->
  (forall l, endTestFunc hw (EndTest Slave :: l) Master
             = endTestFunc hw' (EndTest Slave :: l) Master) ->
  run hw args = run hw' args.
Proof. apply run_twin. Qed.

Lemma transmitter_answers_unused_witness :
  run (steady_bench false 5000) example_args
  = run (receiver_bench false 5000) example_args.
Proof.
  apply (transmitter_answers_unused (steady_bench false 5000)
           (receiver_bench false 5000) example_args);
    [reflexivity | intros l; reflexivity | intros l; reflexivity].
Defined.

(** X3. On a host without the RF switch the attenuator is never
    commanded: no run sends a set-attenuation command, whatever levels
    were asked for. *)
Theorem attenuator_untouched (hw : bench) (args : arguments) :
  rf_switch hw = false ->
  forall a, ~ In (SetAtten a) (log (snd (run hw args))).
Proof.
  intros Hrf.
  set (P := fun s : state => forall a, ~ In (SetAtten a) (log s)).
  assert (Hskip : forall (k : nat) (l : list command) (c : command),
            In c (skipn k l) -> In c l).
  { induction k as [|k IH]; intros [|x l] c H; cbn in *; auto. }
  assert (K : forall levels,
            P (snd (sweep hw args (tuples args) levels (started args)))).
  { intros levels. apply sweep_keeps.
    - intros a [H|[H|[]]]; discriminate.
    - intros s H. exact H.
    - intros t atten s Hmx H a Hin.
      destruct (trial_shape hw args t atten s Hmx) as (_ & (d & k & L) & _).
      rewrite L, Hrf in Hin. apply in_app_or in Hin as [Hin | Hin].
      + apply Hskip in Hin.
        destruct t as [[[[packetLen numPkt] phy] txPower] chan].
        cbn in Hin. intuition discriminate.
      + now apply (H a). }
  destruct (run hw args) as [o s] eqn:Hr. cbn [snd].
  apply run_cases in Hr as [[_ ->] | (levels & _ & [(e & E & _) | (s1 & E & ->)])].
  - intros a [].
  - specialize (K levels). rewrite E in K. exact K.
  - specialize (K levels). rewrite E in K. intros a [H|[H|H]]; try discriminate.
    now apply (K a).
Qed.

Lemma attenuator_untouched_witness :
  rf_switch (steady_bench false 5000) = false /\
  ~ In (SetAtten (PStr "20"))
       (log (snd (run (steady_bench false 5000) example_args))).
Proof.
  split; [reflexivity|].
  apply (attenuator_untouched (steady_bench false 5000) example_args eq_refl).
Defined.


(** X5. A level follows the fixed sequence of commands and nothing else:
    what it sends is always the first part, in time, of the sequence of
    lines 147-193, so there is at most one measurement per level. A level
    that ends normally has written exactly one row, after the whole
    sequence (with float PER values) or, with the budget used up, after
    none of it (with the forced values); a level that dies has written
    nothing and left the running maximum as it was. The retry counter is
    the same before and after. *)
Theorem level_follows_protocol (hw : bench) (args : arguments) (t : tuple)
    (atten : value) (s : state) :
  is_num (perMax s) = true ->
  per_100 (snd (trial hw args t atten s)) = per_100 s /\
  (exists d k,
     log (snd (trial hw args t atten s))
     = skipn k (protocol (rf_switch hw) t atten d) ++ log s) /\
  match fst (trial hw args t atten s) with
  | Done _ =>
      (RETRY <= per_100 s /\
       log (snd (trial hw args t atten s)) = log s /\
       written (snd (trial hw args t atten s))
       = Data (row_of t atten (PInt 100) (PInt 100)) :: written s) \/
      (per_100 s < RETRY /\
       exists d fm fs,
         log (snd (trial hw args t atten s))
         = protocol (rf_switch hw) t atten d ++ log s /\
         written (snd (trial hw args t atten s))
         = Data (row_of t atten (PFloat fm) (PFloat fs)) :: written s)
  | Uncaught _ =>
      written (snd (trial hw args t atten s)) = written s /\
      perMax (snd (trial hw args t atten s)) = perMax s
  | NoFuel => False
  end.
Proof. apply trial_shape. Qed.

Lemma level_follows_protocol_witness :
  exists d k,
    log (snd (trial silent_bench example_args example_tuple (PStr "20") init))
    = skipn k (protocol false example_tuple (PStr "20") d) ++ [].
Proof.
  apply (proj1 (proj2 (level_follows_protocol silent_bench example_args
                         example_tuple (PStr "20") init eq_refl))).
Defined.





(** X8. The formula of lines 175 and 193 is exact at its ends: for every
    positive packet number, a count equal to it gives exactly 100.0 and a
    count of zero exactly 0.0, without rounding error. *)
Theorem per_endpoints (n : Z) :
  0 < n ->
  per (PInt n) n = Ok (PFloat hundred) /\
  per (PInt 0) n = Ok (PFloat (S754_zero false)).
Proof. intros H. split; [now apply per_full | now apply per_nothing]. Qed.

Lemma per_endpoints_witness :
  per (PInt 37) 37 = Ok (PFloat hundred) /\
  per (PInt 0) 37 = Ok (PFloat (S754_zero false)).
Proof. apply (per_endpoints 37). lia. Defined.

(** X9. A packet number that is no integer, or is zero, is found out only
    on line 175: in a level entered with budget left and a usable delay,
    the devices are set up, the first direction is tested with that packet
    number and both end-test calls are made; then [int()] raises, or the
    division raises [ZeroDivisionError] when the slave reported a count.
    The process ends there with no row written. *)
Theorem packet_number_checked_late (hw : bench) (args : arguments)
    (t : tuple) (atten : value) (s : state) (d : Z) :
  per_100 s < RETRY ->
  int (delay args) = Ok d -> 0 <= d ->
  (forall e,
     int (PStr (numPkt_of t)) = Raise e ->
     exists s',
       trial hw args t atten s = (Uncaught e, s') /\
       written s' = written s /\
       log s' = EndTest Slave :: history_slave (rf_switch hw) t atten d (log s)) /\
  (forall cs,
     int (PStr (numPkt_of t)) = Ok 0 ->
     endTestFunc hw (history_slave (rf_switch hw) t atten d (log s)) Slave = Some cs ->
     exists s',
       trial hw args t atten s = (Uncaught ZeroDivisionError, s') /\
       written s' = written s /\
       log s' = EndTest Slave :: history_slave (rf_switch hw) t atten d (log s)).
Proof.
  intros Hp Hd Hd0. split.
  - intros e Hn. eexists. split.
    + apply trial_dies; [assumption|]. now apply (attempt_bad_number hw args t atten s d e).
    + split; reflexivity.
  - intros cs Hn Hcs. eexists. split.
    + apply trial_dies; [assumption|].
      now apply (attempt_zero_number hw args t atten s d cs).
    + split; reflexivity.
Qed.

Lemma packet_number_checked_late_witness :
  exists s',
    trial (steady_bench false 5000) example_args ("250", "0", "1", "0", "0")
      (PStr "20") init
    = (Uncaught ZeroDivisionError, s') /\
    written s' = [] /\
    log s' = EndTest Slave
             :: history_slave false ("250", "0", "1", "0", "0") (PStr "20") 1 [].
Proof.
  apply (proj2 (packet_number_checked_late (steady_bench false 5000) example_args
                  ("250", "0", "1", "0", "0") (PStr "20") init 1
                  eq_refl eq_refl ltac:(discriminate)) 5000%N);
    reflexivity.
Defined.



(** X11. Step sizes at the edges, without an explicit attenuation list: a
    negative step makes the range empty, so the only level is the appended
    90; a step of 70 or more leaves the two levels 20 and 90. *)
Theorem step_edges (args : arguments) (S : Z) :
  attens args = None ->
  int (step args) = Ok S ->
  (S < 0 -> attenuations args = Ok [PInt 90]) /\
  (70 <= S -> attenuations args = Ok [PInt 20; PInt 90]).
Proof.
  intros Ha Hs. unfold attenuations. rewrite Ha, Hs. cbn [rbind]. split; intros H.
  - destruct (Z.eqb_spec S 0) as [|_]; [lia|]. unfold range, range_len.
    destruct (Z.eqb_spec S 0) as [|_]; [lia|].
    destruct (Z.ltb_spec 0 S) as [|_]; [lia|]. reflexivity.
  - destruct (Z.eqb_spec S 0) as [|_]; [lia|]. unfold range, range_len.
    destruct (Z.eqb_spec S 0) as [|_]; [lia|].
    destruct (Z.ltb_spec 0 S) as [_|]; [|lia].
    replace ((90 - 20 - 1) / S) with 0 by (symmetry; apply Z.div_small; lia).
    reflexivity.
Qed.

Lemma step_edges_witness :
  attenuations (with_step (PStr "-10") (default_args "s" "m" "r")) = Ok [PInt 90].
Proof.
  apply (proj1 (step_edges (with_step (PStr "-10") (default_args "s" "m" "r")) (-10)
                  eq_refl eq_refl)).
  lia.
Defined.

